(** * LeaderboardTS: the leaderboard engine over a sorted-set store

    Shallow embedding of [src/Leaderboard.ts].  The engine translates
    leaderboard operations (rank, score, page, page count) into sorted-set
    commands sent to a Redis client and post-processes the replies inside
    node-style callbacks [(error, result)].

    Layout:
    - [JS]: the fragment of JavaScript values and operators the engine uses
      ([null]/[undefined], numbers with [NaN] and the infinities, [+], [/],
      [Math.ceil], [parseFloat], truthiness, [==] and [===]).
    - [Redis]: the sorted-set store and its client.  The client library is
      an external collaborator of the repository; it is modelled from the
      adapter contract of the specification.
    - [Engine]: the class [Leaderboard], one definition per method.
    - The theorems. *)

From stdpp Require Import base option list gmap strings.
From Stdlib Require Import ZArith QArith Qround Lia Lqa.

Local Open Scope Q_scope.

(** ** JavaScript values *)

Module JS.

(** A JavaScript number.  Finite values are exact rationals: the engine
    only adds one to store indices and divides cardinalities by page
    sizes, and on integers below 2^53 the double-precision results of
    those operations followed by [Math.ceil] agree with exact arithmetic.
    Signed zeros are not distinguished. *)
Inductive number : Type :=
| Fin (q : Q)
| NaN
| Infinity (negative : bool).

(** The values that reach the engine: store replies, option fields and
    arguments typed [number] in the source. *)
Inductive jsval : Type :=
| Undefined
| Null
| Num (n : number).

(** The [error] argument of a callback: [None] is [null], [Some msg] an
    error object. *)
Definition error : Type := option string.

Definition of_Z (z : Z) : number := Fin (inject_Z z).
Definition of_nat (n : nat) : number := of_Z (Z.of_nat n).

Definition is_zero (q : Q) : bool := (Qnum q =? 0)%Z.
Definition is_neg (q : Q) : bool := (Qnum q <? 0)%Z.

(** ToNumber *)
Definition ToNumber (v : jsval) : number :=
  match v with
  | Undefined => NaN
  | Null => Fin 0
  | Num n => n
  end.

(** ToBoolean *)
Definition ToBoolean (v : jsval) : bool :=
  match v with
  | Undefined | Null => false
  | Num (Fin q) => negb (is_zero q)
  | Num NaN => false
  | Num (Infinity _) => true
  end.

(** [a + b] on numbers. *)
Definition add (a b : number) : number :=
  match a, b with
  | NaN, _ | _, NaN => NaN
  | Fin x, Fin y => Fin (x + y)
  | Infinity s, Fin _ | Fin _, Infinity s => Infinity s
  | Infinity s, Infinity t => if Bool.eqb s t then Infinity s else NaN
  end.

(** [a / b] on numbers. *)
Definition div (a b : number) : number :=
  match a, b with
  | NaN, _ | _, NaN => NaN
  | Fin x, Fin y =>
      if is_zero y then (if is_zero x then NaN else Infinity (is_neg x))
      else Fin (x / y)
  | Fin _, Infinity _ => Fin 0
  | Infinity s, Fin y => Infinity (xorb s (is_neg y))
  | Infinity _, Infinity _ => NaN
  end.

(** [v + w] and [v / w] on values without strings or objects: both
    operands go through ToNumber. *)
Definition plus (v w : jsval) : jsval := Num (add (ToNumber v) (ToNumber w)).
Definition divide (v w : jsval) : jsval := Num (div (ToNumber v) (ToNumber w)).

(** [Math.ceil] *)
Definition Math_ceil (v : jsval) : jsval :=
  match ToNumber v with
  | Fin q => Num (of_Z (Qceiling q))
  | n => Num n
  end.

(** [parseFloat(v)]: the argument is converted to a string and parsed.
    ["undefined"] and ["null"] do not parse; the string of a number
    parses back to that number. *)
Definition parseFloat (v : jsval) : jsval :=
  match v with
  | Undefined | Null => Num NaN
  | Num n => Num n
  end.

(** [v < 0] *)
Definition lt0 (v : jsval) : bool :=
  match ToNumber v with
  | Fin q => is_neg q
  | NaN => false
  | Infinity s => s
  end.

Definition number_eqb (a b : number) : bool :=
  match a, b with
  | Fin x, Fin y => Qeq_bool x y
  | Infinity s, Infinity t => Bool.eqb s t
  | _, _ => false
  end.

(** [v === w] *)
Definition strict_eq (v w : jsval) : bool :=
  match v, w with
  | Undefined, Undefined | Null, Null => true
  | Num a, Num b => number_eqb a b
  | _, _ => false
  end.

(** [v == w]: [null] and [undefined] are loosely equal to each other and
    to nothing else. *)
Definition loose_eq (v w : jsval) : bool :=
  match v, w with
  | (Undefined | Null), (Undefined | Null) => true
  | Num a, Num b => number_eqb a b
  | _, _ => false
  end.

(** [e == null] for the error argument. *)
Definition error_is_null (e : error) : bool :=
  match e with None => true | Some _ => false end.

(** The value is a number greater than zero. *)
Definition positive (v : jsval) : bool :=
  match v with
  | Num (Fin q) => (0 <? Qnum q)%Z
  | Num (Infinity false) => true
  | _ => false
  end.

(** What a call with a node-style callback amounts to. *)
Inductive outcome (T : Type) : Type :=
| Callback (err : error) (result : T)   (* callback(err, result) *)
| Throws (msg : string)                 (* a TypeError escaped *)
| NoCallback.                           (* returned, callback never invoked *)

Arguments Callback {T} err result.
Arguments Throws {T} msg.
Arguments NoCallback {T}.

(** A call either yields its value or throws: a TypeError of the engine's
    own making, or whatever a collaborator raised. *)
Inductive completion (T : Type) : Type :=
| Normal (x : T)
| TypeError (msg : string)
| Thrown (e : string).

Arguments Normal {T} x.
Arguments TypeError {T} msg.
Arguments Thrown {T} e.

End JS.

Import JS.

(** ** The sorted-set store *)

Module Redis.

(** Modelled from the spec: the Redis client library ([require("redis")])
    is not part of the repository.  The store follows the adapter contract
    of the specification (section 4.1): a named collection maps each member
    to one score, [add] is an upsert, ranks are 0-based positions in
    ascending or descending score order, exact-score ties are ordered by
    member, lexicographically ascending, and a missing member is answered
    with a nil reply.  Scores are real numbers (section 3), here rationals;
    the store's treatment of non-finite scores is outside the model. *)
Abbreviation zset := (gmap string Q).
Abbreviation database := (gmap string zset).

Inductive command : Type :=
| DEL (key : string)
| ZADD (key : string) (score : Q) (member : string)
| ZREM (key : string) (member : string)
| ZCARD (key : string)
| ZCOUNT (key : string) (min max : Q)
| ZRANK (key : string) (member : string)
| ZREVRANK (key : string) (member : string)
| ZSCORE (key : string) (member : string).

(** The sorted set stored under [key]; a missing key is an empty set. *)
Definition zset_at (d : database) (key : string) : zset := default ∅ (d !! key).

(** Modelled from the spec: the store's total order on entries, by score
    and, for equal scores, by member in lexicographic order. *)
Definition precedes (a b : string * Q) : bool :=
  match a.2 ?= b.2 with
  | Lt => true
  | Eq => String.ltb a.1 b.1
  | Gt => false
  end.

Definition count_if (p : string * Q → bool) (z : zset) : nat :=
  length (List.filter p (map_to_list z)).

(** Modelled from the spec: [rankAscending] of the adapter contract, the
    0-based position of [member] in ascending order, that is the number
    of entries that precede it; absent for a missing member. *)
Definition zrank (z : zset) (member : string) : option nat :=
  s ← z !! member; Some (count_if (λ e, precedes e (member, s)) z).

(** Modelled from the spec: [rankDescending] of the adapter contract, the
    0-based position of [member] in descending order, that is the number
    of entries it precedes; absent for a missing member. *)
Definition zrevrank (z : zset) (member : string) : option nat :=
  s ← z !! member; Some (count_if (λ e, precedes (member, s) e) z).

Definition zcount (z : zset) (min max : Q) : nat :=
  count_if (λ e, Qle_bool min e.2 && Qle_bool e.2 max) z.

(** Replies: an integer, a score, or nil.  A score comes back as a
    number, as the adapter contract has it ([score -> number|absent]).  The
    client the source is written for hands a score over as the string that
    spells it, which is why [getScoreFor] parses the reply; the values of
    this development have no strings, and the reply stands for the number
    that string spells.  A statement that compares a raw score reply with a
    parsed one therefore keeps [parseFloat] in its text. *)
Definition integer (n : nat) : jsval := Num (of_nat n).
Definition nil : jsval := Null.
Definition index_reply (r : option nat) : jsval :=
  match r with Some i => integer i | None => nil end.
Definition score_reply (r : option Q) : jsval :=
  match r with Some s => Num (Fin s) | None => nil end.

(** Modelled from the spec: one primitive of the adapter contract run
    against the store, giving the new store and the reply.  [ZADD] upserts
    and answers with the number of members added, [ZREM] and [DEL] answer
    with the number removed, the queries leave the store as it is. *)
Definition apply (c : command) (d : database) : database * jsval :=
  match c with
  | DEL key =>
      (delete key d, integer (if d !! key is Some _ then 1 else 0))
  | ZADD key score member =>
      let z := zset_at d key in
      (<[key := <[member := score]> z]> d,
       integer (if z !! member is Some _ then 0 else 1))
  | ZREM key member =>
      let z := zset_at d key in
      let z' := delete member z in
      ((if decide (size z' = 0%nat) then delete key d else <[key := z']> d),
       integer (if z !! member is Some _ then 1 else 0))
  | ZCARD key => (d, integer (size (zset_at d key)))
  | ZCOUNT key min max => (d, integer (zcount (zset_at d key) min max))
  | ZRANK key member => (d, index_reply (zrank (zset_at d key) member))
  | ZREVRANK key member => (d, index_reply (zrevrank (zset_at d key) member))
  | ZSCORE key member => (d, score_reply (zset_at d key !! member))
  end.

(** Modelled from the spec: the batch handle of the adapter contract.  The
    queued calls run as one unit, in order, and the replies come back in
    the order of the calls. *)
Fixpoint apply_all (cs : list command) (d : database) : database * list jsval :=
  match cs with
  | [] => (d, [])
  | c :: cs' =>
      let '(d1, r) := apply c d in
      let '(d2, rs) := apply_all cs' d1 in
      (d2, r :: rs)
  end.

(** What the engine sees of a client: a single command with its callback
    arguments [(error, reply)], and [multi()...exec] with [(error, replies)],
    where [replies] is an array or undefined. *)
Record RedisClient : Type := {
  send : command → database → database * (error * jsval);
  exec : list command → database → database * (error * option (list jsval))
}.

(** A client whose store answers every call. *)
Definition connected : RedisClient := {|
  send c d := let '(d', r) := apply c d in (d', (None, r));
  exec cs d := let '(d', rs) := apply_all cs d in (d', (None, Some rs))
|}.

(** A client whose every call fails with the error [msg]: the store is
    untouched and no reply comes back. *)
Definition failing (msg : string) : RedisClient := {|
  send _ d := (d, (Some msg, Undefined));
  exec _ d := (d, (Some msg, None))
|}.

End Redis.

Import Redis.

(** ** The leaderboard engine *)

Module Engine.

(** [enum SortOrders] *)
Definition Ascending : number := Fin 0.
Definition Descending : number := Fin 1.

(** [interface IRankWithScoresResult].  The fields are typed [number] in
    the source; at run time they hold whatever the object literal is
    given. *)
Record IRankWithScoresResult : Type := {
  rank : jsval;
  score : jsval
}.

(** [interface ILeaderboardOptions]; a field left out of the object
    literal reads as [undefined]. *)
Record ILeaderboardOptions : Type := {
  name : option string;
  pageSize : jsval;
  sortOrder : jsval
}.

(** [interface IRedisOptions] *)
Record IRedisOptions : Type := {
  host : option string;
  port : jsval;
  db : option string
}.

(** The fields of [class Leaderboard].  [client] is the client the
    constructor creates; [run] below takes the client a method is executed
    against as an argument, which for a method of [this] is [client this]. *)
Record Leaderboard : Type := {
  leaderboardName : string;
  leaderboardOptions : ILeaderboardOptions;
  redisOptions : IRedisOptions;
  client : RedisClient
}.

Definition DEFAULT_PAGE_SIZE : number := Fin 50.
Definition DEFAULT_REDIS_HOST : string := "localhost".
Definition DEFAULT_REDIS_PORT : number := Fin 6379.
Definition DEFAULT_SORT_ORDER : number := Ascending.

(** Truthiness of an optional string: [undefined] and the empty string
    are falsy. *)
Definition truthy (s : option string) : bool :=
  match s with
  | None | Some EmptyString => false
  | Some _ => true
  end.

(** [constructor(leaderboardName, leaderboardOptions?, redisOptions?)].
    Reading a property of an omitted options argument raises a
    TypeError.  The last statement creates the client with
    [Redis.createClient(redisOptions.port, redisOptions.host)]; that
    function belongs to the client library and is taken as the argument
    [createClient]: whatever it throws leaves the constructor. *)
Definition constructor
    (createClient : jsval → option string → completion RedisClient)
    (leaderboardName : string)
    (leaderboardOptions : option ILeaderboardOptions)
    (redisOptions : option IRedisOptions) : completion Leaderboard :=
  match redisOptions with
  | None => TypeError "cannot read property host of undefined"
  | Some ro =>
      let ro :=
        if negb (truthy (host ro))
        then {| host := Some DEFAULT_REDIS_HOST; port := port ro; db := db ro |}
        else ro in
      let ro :=
        if negb (ToBoolean (port ro))
        then {| host := host ro; port := Num DEFAULT_REDIS_PORT; db := db ro |}
        else ro in
      match leaderboardOptions with
      | None => TypeError "cannot read property pageSize of undefined"
      | Some lo =>
          let lo :=
            if negb (ToBoolean (pageSize lo)) || lt0 (pageSize lo)
            then {| name := name lo; pageSize := Num DEFAULT_PAGE_SIZE;
                    sortOrder := sortOrder lo |}
            else lo in
          let lo :=
            if negb (ToBoolean (sortOrder lo))
            then {| name := name lo; pageSize := pageSize lo;
                    sortOrder := Num DEFAULT_SORT_ORDER |}
            else lo in
          match createClient (port ro) (host ro) with
          | Normal client =>
              Normal {| leaderboardName := leaderboardName;
                        leaderboardOptions := lo;
                        redisOptions := ro;
                        client := client |}
          | TypeError msg => TypeError msg
          | Thrown e => Thrown e
          end
      end
  end.

(** [get pageSize()] *)
Definition get_pageSize (this : Leaderboard) : jsval :=
  pageSize (leaderboardOptions this).

(** [set pageSize(value)] *)
Definition set_pageSize (this : Leaderboard) (value : jsval) : Leaderboard :=
  if negb (strict_eq value (pageSize (leaderboardOptions this)))
  then {| leaderboardName := leaderboardName this;
          leaderboardOptions :=
            {| name := name (leaderboardOptions this);
               pageSize := value;
               sortOrder := sortOrder (leaderboardOptions this) |};
          redisOptions := redisOptions this;
          client := client this |}
  else this.

(** A method body: at most one request to the client (a single command
    or a queued batch) and the function the client calls back with the
    error and the reply. *)
Inductive program (T : Type) : Type :=
| Send (c : command) (k : error → jsval → outcome T)
| Exec (cs : list command) (k : error → option (list jsval) → outcome T)
| Return (o : outcome T).

Arguments Send {T} c k.
Arguments Exec {T} cs k.
Arguments Return {T} o.

(** The commands a method issues. *)
Definition commands {T} (p : program T) : list command :=
  match p with
  | Send c _ => [c]
  | Exec cs _ => cs
  | Return _ => []
  end.

(** Running a method against a client and a store. *)
Definition run {T} (client : RedisClient) (p : program T) (d : database)
    : database * outcome T :=
  match p with
  | Send c k => let '(d', (err, reply)) := send client c d in (d', k err reply)
  | Exec cs k => let '(d', (err, replies)) := exec client cs d in (d', k err replies)
  | Return o => (d, o)
  end.

(** [replies[i]] on an array. *)
Definition at_index (replies : list jsval) (i : nat) : jsval :=
  nth i replies Undefined.

Definition deleteLeaderboard (this : Leaderboard) : program jsval :=
  Send (DEL (leaderboardName this)) (λ error result, Callback error result).

Definition rankMember (this : Leaderboard) (member : string) (score : Q)
    : program jsval :=
  Send (ZADD (leaderboardName this) score member)
       (λ error result, Callback error result).

Definition removeMemember (this : Leaderboard) (member : string) : program jsval :=
  Send (ZREM (leaderboardName this) member) (λ error result, Callback error result).

Definition memberCount (this : Leaderboard) : program jsval :=
  Send (ZCARD (leaderboardName this)) (λ error result, Callback error result).

Definition memberCountInRange (this : Leaderboard) (minScore maxScore : Q)
    : program jsval :=
  Send (ZCOUNT (leaderboardName this) minScore maxScore)
       (λ error result, Callback error result).

(** [pageCount(callback)] is [pageCount this None], [pageCount(pageSize,
    callback)] is [pageCount this (Some pageSize)]. *)
Definition pageCount (this : Leaderboard) (param1 : option jsval) : program jsval :=
  let pageSize :=
    match param1 with
    | None => get_pageSize this
    | Some param1 => param1
    end in
  Send (ZCARD (leaderboardName this))
       (λ error result, Callback error (Math_ceil (divide result pageSize))).

Definition getRankFor (this : Leaderboard) (member : string) : program jsval :=
  let response (error : error) (result : jsval) : outcome jsval :=
    if negb (loose_eq result Null)
    then Callback error (plus result (Num (Fin 1)))
    else Callback None Null in
  if strict_eq (sortOrder (leaderboardOptions this)) (Num Descending)
  then Send (ZRANK (leaderboardName this) member) response
  else Send (ZREVRANK (leaderboardName this) member) response.

Definition getScoreFor (this : Leaderboard) (member : string) : program jsval :=
  Send (ZSCORE (leaderboardName this) member)
       (λ error result,
          if error_is_null error
          then Callback error (parseFloat result)
          else Callback None Null).

(** The result is [null] or an object literal [{ rank, score }].  The
    [console.log] of the reply is not modelled. *)
Definition getRankWithScoreFor (this : Leaderboard) (member : string)
    : program (option IRankWithScoresResult) :=
  let response (error : error) (replies : option (list jsval))
      : outcome (option IRankWithScoresResult) :=
    if negb (error_is_null error)
    then Callback None None
    else match replies with
         | Some replies =>
             Callback error
               (Some {| rank := plus (at_index replies 1) (Num (Fin 1));
                        score := at_index replies 0 |})
         | None => Throws "cannot read property 1 of undefined"
         end in
  let transaction := [ZSCORE (leaderboardName this) member] in
  let transaction :=
    if loose_eq (sortOrder (leaderboardOptions this)) (Num Descending)
    then transaction ++ [ZRANK (leaderboardName this) member]
    else transaction ++ [ZREVRANK (leaderboardName this) member] in
  Exec transaction (λ error replies, response error replies).

(** [getPageFor(member, callback)] is [getPageFor this member None],
    [getPageFor(member, pageSize, callback)] is
    [getPageFor this member (Some pageSize)]. *)
Definition getPageFor (this : Leaderboard) (member : string)
    (param2 : option jsval) : program jsval :=
  let pageSize :=
    match param2 with
    | None => get_pageSize this
    | Some param2 => param2
    end in
  Exec [ZRANK (leaderboardName this) member]
       (λ error replies,
          match replies with
          | None => Throws "cannot read property 0 of undefined"
          | Some replies =>
              let rank := at_index replies 0 in
              let rank :=
                if loose_eq rank Null then Num (Fin 0)
                else plus rank (Num (Fin 1)) in
              let result := Math_ceil (divide rank pageSize) in
              Callback error result
          end).

(** [getTop(count, callback)] is [getTop this count None],
    [getTop(offset, count, callback)] is [getTop this offset (Some count)].
    The body of the method is empty. *)
Definition getTop (this : Leaderboard) (param1 : jsval) (param2 : option jsval)
    : program string :=
  Return NoCallback.

(** The page size a paging query works with: the explicit argument, else
    the configured page size. *)
Definition effective_pageSize (this : Leaderboard) (param : option jsval) : jsval :=
  match param with
  | None => get_pageSize this
  | Some pageSize => pageSize
  end.

End Engine.

Import Engine.

(** ** Sample data *)

(** The members A:10, B:20, C:30. *)
Definition abc : zset := <["A" := 10]> (<["B" := 20]> (<["C" := 30]> ∅)).

(** A store holding [abc] under the key ["scores"]. *)
Definition abc_store : database := <["scores" := abc]> ∅.

Definition local_redis : IRedisOptions :=
  {| host := Some "localhost"; port := Num (Fin 6379); db := None |}.

(** The leaderboard ["scores"] with page size 50 and the given sort order. *)
Definition scores (order : number) : Leaderboard :=
  {| leaderboardName := "scores";
     leaderboardOptions :=
       {| name := None; pageSize := Num (Fin 50); sortOrder := Num order |};
     redisOptions := local_redis;
     client := connected |}.

(** A client library whose [createClient] always hands out the connected
    client. *)
Definition createClient_connected (port : jsval) (host : option string)
    : completion RedisClient :=
  Normal connected.

(** A client library whose [createClient] rejects every port. *)
Definition createClient_rejecting (port : jsval) (host : option string)
    : completion RedisClient :=
  Thrown "invalid port".

(** ** Notions used in the statements *)

(** The commands that only read the store. *)
Definition read_only (c : command) : bool :=
  match c with
  | ZCARD _ | ZCOUNT _ _ _ | ZRANK _ _ | ZREVRANK _ _ | ZSCORE _ _ => true
  | DEL _ | ZADD _ _ _ | ZREM _ _ => false
  end.

(** The key a command works on. *)
Definition key_of (c : command) : string :=
  match c with
  | DEL key | ZADD key _ _ | ZREM key _ | ZCARD key | ZCOUNT key _ _
  | ZRANK key _ | ZREVRANK key _ | ZSCORE key _ => key
  end.

(** The method body [p] only sends reading commands, all of them on the
    key of the leaderboard [this]. *)
Definition reads_own_key {T} (this : Leaderboard) (p : program T) : Prop :=
  Forall (λ c, read_only c = true ∧ key_of c = leaderboardName this) (commands p).

(** The leaderboard [this] configured with another sort order. *)
Definition with_sortOrder (this : Leaderboard) (order : jsval) : Leaderboard :=
  {| leaderboardName := leaderboardName this;
     leaderboardOptions :=
       {| name := name (leaderboardOptions this);
          pageSize := pageSize (leaderboardOptions this);
          sortOrder := order |};
     redisOptions := redisOptions this;
     client := client this |}.

(** The number of members of the leaderboard [this] in the store [d]. *)
Definition members (this : Leaderboard) (d : database) : nat :=
  size (zset_at d (leaderboardName this)).

(** ** Arithmetic of the JavaScript fragment *)

Lemma add_of_Z (a b : Z) : add (of_Z a) (of_Z b) = of_Z (a + b).
Proof.
  unfold add, of_Z, inject_Z, Qplus; simpl.
  by rewrite !Z.mul_1_r.
Qed.

Lemma plus_integer (i : nat) :
  plus (integer i) (Num (Fin 1)) = Num (of_Z (Z.of_nat i + 1)).
Proof.
  unfold plus, integer, of_nat, ToNumber.
  change (Fin 1) with (of_Z 1). by rewrite add_of_Z.
Qed.

Lemma is_zero_pos (p : Q) : 0 < p → is_zero p = false.
Proof.
  unfold Qlt, is_zero; simpl. intros H.
  apply Z.eqb_neq. lia.
Qed.

Lemma ceil_divide (r : Z) (p : Q) :
  0 < p →
  Math_ceil (divide (Num (of_Z r)) (Num (Fin p)))
  = Num (of_Z (Qceiling (inject_Z r / p))).
Proof.
  intros Hp. unfold Math_ceil, divide; simpl.
  by rewrite (is_zero_pos p Hp).
Qed.

Lemma Qceiling_zero (x : Q) : x == 0 → Qceiling x = 0%Z.
Proof. intros ->. reflexivity. Qed.

Lemma Qceiling_ge_1 (x : Q) : 0 < x → (1 <= Qceiling x)%Z.
Proof.
  intros Hx.
  assert (H : 0 < inject_Z (Qceiling x))
    by (eapply Qlt_le_trans; [exact Hx | apply Qle_ceiling]).
  change 0 with (inject_Z 0) in H. rewrite <- Zlt_Qlt in H. lia.
Qed.

(** The ceiling is the only integer [k] with [k - 1 < x <= k]. *)
Lemma Qceiling_unique (x : Q) (k : Z) :
  inject_Z (k - 1) < x → x <= inject_Z k → Qceiling x = k.
Proof.
  intros Hlo Hhi.
  assert (H1 : inject_Z (Qceiling x - 1) < inject_Z k)
    by (eapply Qlt_le_trans; [apply Qceiling_lt | exact Hhi]).
  assert (H2 : inject_Z (k - 1) < inject_Z (Qceiling x))
    by (eapply Qlt_le_trans; [exact Hlo | apply Qle_ceiling]).
  rewrite <- Zlt_Qlt in H1, H2. lia.
Qed.

(** ** The store *)

Lemma zset_at_insert (d : database) (key : string) (z : zset) :
  zset_at (<[key := z]> d) key = z.
Proof. unfold zset_at. by rewrite lookup_insert_eq. Qed.

Lemma zrank_None (z : zset) (m : string) : zrank z m = None ↔ z !! m = None.
Proof. unfold zrank. destruct (z !! m); simpl; split; congruence. Qed.

Lemma zrevrank_None (z : zset) (m : string) : zrevrank z m = None ↔ z !! m = None.
Proof. unfold zrevrank. destruct (z !! m); simpl; split; congruence. Qed.

Lemma zrank_is_Some (z : zset) (m : string) (s : Q) :
  z !! m = Some s → is_Some (zrank z m) ∧ is_Some (zrevrank z m).
Proof. unfold zrank, zrevrank. intros ->; simpl. eauto. Qed.

(** The order on entries is irreflexive, and total on entries of
    different members. *)
Lemma precedes_irrefl (e : string * Q) : precedes e e = false.
Proof.
  unfold precedes, String.ltb.
  rewrite (proj1 (Qeq_alt _ _) (Qeq_refl e.2)).
  destruct (String.compare e.1 e.1) eqn:Hc; try done.
  pose proof (String.compare_antisym e.1 e.1) as Hanti.
  rewrite Hc in Hanti. discriminate.
Qed.

Lemma precedes_total (a b : string * Q) :
  a.1 ≠ b.1 → precedes a b = negb (precedes b a).
Proof.
  intros Hne. unfold precedes, String.ltb.
  rewrite <- (Qcompare_antisym b.2 a.2).
  destruct (b.2 ?= a.2); cbn [CompOpp negb]; try done.
  rewrite (String.compare_antisym a.1 b.1).
  destruct (String.compare b.1 a.1) eqn:Hc; cbn [CompOpp negb]; try done.
  apply String.compare_eq_iff in Hc. congruence.
Qed.

Lemma filter_key_absent (m : string) (l : list (string * Q)) :
  m ∉ l.*1 → length (List.filter (λ e, bool_decide (e.1 = m)) l) = 0%nat.
Proof.
  induction l as [|a l IH]; [done|].
  rewrite fmap_cons, not_elem_of_cons. intros [Hne Hm]. cbn [List.filter].
  rewrite bool_decide_eq_false_2 by congruence. by apply IH.
Qed.

Lemma filter_key_once (m : string) (l : list (string * Q)) :
  NoDup (l.*1) → m ∈ l.*1 →
  length (List.filter (λ e, bool_decide (e.1 = m)) l) = 1%nat.
Proof.
  induction l as [|a l IH]; [by intros _ ?%elem_of_nil|].
  rewrite fmap_cons, NoDup_cons, elem_of_cons. intros [Ha Hl] Hm.
  cbn [List.filter]. destruct (decide (a.1 = m)) as [Heq|Hne].
  - rewrite bool_decide_eq_true_2 by done. cbn [length].
    rewrite filter_key_absent; [done | congruence].
  - rewrite bool_decide_eq_false_2 by done.
    destruct Hm as [Hm|Hm]; [congruence | by apply IH].
Qed.

Lemma filter_split (m : string) (p q : string * Q → bool) (l : list (string * Q)) :
  (∀ e, e ∈ l → e.1 ≠ m → p e = negb (q e)) →
  (∀ e, e ∈ l → e.1 = m → p e = false ∧ q e = false) →
  (length (List.filter p l) + length (List.filter q l)
   + length (List.filter (λ e, bool_decide (e.1 = m)) l) = length l)%nat.
Proof.
  induction l as [|a l IH]; [done|]. intros Hne Heq.
  assert (IH' := IH (λ e He, Hne e (list_elem_of_further _ _ _ He))
                    (λ e He, Heq e (list_elem_of_further _ _ _ He))).
  cbn [List.filter]. destruct (decide (a.1 = m)) as [Ha|Ha].
  - destruct (Heq a (list_elem_of_here _ _) Ha) as [-> ->].
    rewrite bool_decide_eq_true_2 by done. cbn [length]. lia.
  - rewrite (Hne a (list_elem_of_here _ _) Ha).
    rewrite bool_decide_eq_false_2 by done.
    destruct (q a); cbn [negb length]; lia.
Qed.

(** Ranks are total: the entries before a member, the entries after it and
    the member itself make up the whole set, so the ascending and the
    descending position mirror each other. *)
Lemma zrank_zrevrank (z : zset) (m : string) (i j : nat) :
  zrank z m = Some i → zrevrank z m = Some j → (i + j + 1 = size z)%nat.
Proof.
  unfold zrank, zrevrank, count_if.
  destruct (z !! m) as [s|] eqn:Hs; [|done]. cbn. intros [= <-] [= <-].
  rewrite <- (length_map_to_list z).
  rewrite <- (filter_key_once m (map_to_list z)).
  - apply filter_split.
    + intros e _ He. by apply precedes_total.
    + intros [m' s'] He%elem_of_map_to_list Hm. cbn in Hm. subst m'.
      assert (s' = s) as -> by congruence.
      by rewrite precedes_irrefl.
  - apply NoDup_fst_map_to_list.
  - apply list_elem_of_fmap. exists (m, s). split; [done|].
    by apply elem_of_map_to_list.
Qed.

(** ** What each query returns against a connected store *)

(** The 0-based index [getRankFor] and [getRankWithScoreFor] ask the store
    for: ascending position for a Descending leaderboard, descending
    position otherwise. *)
Lemma run_getRankFor (this : Leaderboard) (m : string) (d : database) :
  run connected (getRankFor this m) d
  = (d, match (if strict_eq (sortOrder (leaderboardOptions this)) (Num Descending)
               then zrank (zset_at d (leaderboardName this)) m
               else zrevrank (zset_at d (leaderboardName this)) m) with
        | Some i => Callback None (Num (of_Z (Z.of_nat i + 1)))
        | None => Callback None Null
        end).
Proof.
  unfold getRankFor.
  destruct (strict_eq _ _); cbn [run connected send apply].
  - destruct (zrank _ m) as [i|]; cbn [index_reply]; [|done].
    by rewrite plus_integer.
  - destruct (zrevrank _ m) as [i|]; cbn [index_reply]; [|done].
    by rewrite plus_integer.
Qed.

Lemma run_getScoreFor (this : Leaderboard) (m : string) (d : database) :
  run connected (getScoreFor this m) d
  = (d, match zset_at d (leaderboardName this) !! m with
        | Some s => Callback None (Num (Fin s))
        | None => Callback None (Num NaN)
        end).
Proof.
  unfold getScoreFor; cbn [run connected send apply].
  by destruct (_ !! m).
Qed.

Lemma run_getRankWithScoreFor (this : Leaderboard) (m : string) (d : database) :
  run connected (getRankWithScoreFor this m) d
  = (d, match zset_at d (leaderboardName this) !! m,
              (if loose_eq (sortOrder (leaderboardOptions this)) (Num Descending)
               then zrank (zset_at d (leaderboardName this)) m
               else zrevrank (zset_at d (leaderboardName this)) m) with
        | Some s, Some i =>
            Callback None (Some {| rank := Num (of_Z (Z.of_nat i + 1));
                                   score := Num (Fin s) |})
        | Some s, None =>
            Callback None (Some {| rank := Num (Fin (0 + 1)); score := Num (Fin s) |})
        | None, Some i =>
            Callback None (Some {| rank := Num (of_Z (Z.of_nat i + 1)); score := Null |})
        | None, None =>
            Callback None (Some {| rank := Num (Fin (0 + 1)); score := Null |})
        end).
Proof.
  unfold getRankWithScoreFor.
  destruct (loose_eq _ _);
    cbn [run connected exec app apply_all apply error_is_null negb at_index nth].
  - destruct (_ !! m), (zrank _ m) as [i|]; cbn [index_reply score_reply];
      by rewrite ?plus_integer.
  - destruct (_ !! m), (zrevrank _ m) as [i|]; cbn [index_reply score_reply];
      by rewrite ?plus_integer.
Qed.

Lemma abc_ranks :
  zrank abc "A" = Some 0%nat ∧ zrank abc "B" = Some 1%nat ∧
  zrank abc "C" = Some 2%nat ∧ zrevrank abc "A" = Some 2%nat ∧
  zrevrank abc "B" = Some 1%nat ∧ zrevrank abc "C" = Some 0%nat.
Proof. by vm_compute. Qed.

(** ** Ranks follow the inverted primitive *)

(** C1, as the code has it: on the members A:10, B:20, C:30 an Ascending
    leaderboard ranks by descending position, [getRankFor(A)=3],
    [getRankFor(B)=2], [getRankFor(C)=1], and a Descending leaderboard by
    ascending position, [getRankFor(A)=1], [getRankFor(B)=2],
    [getRankFor(C)=3]; ranks are 1-based. *)
Theorem getRankFor_abc (this : Leaderboard) (d : database) :
  zset_at d (leaderboardName this) = abc →
  (sortOrder (leaderboardOptions this) = Num Ascending →
     snd (run connected (getRankFor this "A") d) = Callback None (Num (Fin 3)) ∧
     snd (run connected (getRankFor this "B") d) = Callback None (Num (Fin 2)) ∧
     snd (run connected (getRankFor this "C") d) = Callback None (Num (Fin 1))) ∧
  (sortOrder (leaderboardOptions this) = Num Descending →
     snd (run connected (getRankFor this "A") d) = Callback None (Num (Fin 1)) ∧
     snd (run connected (getRankFor this "B") d) = Callback None (Num (Fin 2)) ∧
     snd (run connected (getRankFor this "C") d) = Callback None (Num (Fin 3))).
Proof.
  intros Hz.
  destruct abc_ranks as (HA & HB & HC & HA' & HB' & HC').
  split; intros Ho; rewrite !run_getRankFor, Ho, Hz; cbn [strict_eq snd].
  - change (number_eqb Ascending Descending) with false.
    by rewrite HA', HB', HC'.
  - change (number_eqb Descending Descending) with true.
    by rewrite HA, HB, HC.
Qed.

Lemma getRankFor_abc_witness :
  zset_at abc_store (leaderboardName (scores Ascending)) = abc ∧
  snd (run connected (getRankFor (scores Ascending) "A") abc_store)
  = Callback None (Num (Fin 3)).
Proof.
  assert (H : zset_at abc_store (leaderboardName (scores Ascending)) = abc)
    by apply zset_at_insert.
  split; [exact H|].
  exact (proj1 (proj1 (getRankFor_abc (scores Ascending) abc_store H) eq_refl)).
Defined.

(** C1, as the claim states it, fails: with sortOrder=Ascending the member
    with the lowest score is not ranked first. *)
Lemma getRankFor_abc_ascending_not_first :
  snd (run connected (getRankFor (scores Ascending) "A") abc_store)
  ≠ Callback None (Num (Fin 1)).
Proof. vm_compute. discriminate. Qed.

(** C2: a Descending leaderboard asks the store for the ascending rank
    ([ZRANK]) and an Ascending leaderboard for the descending rank
    ([ZREVRANK]), in [getRankFor] and in the batch of
    [getRankWithScoreFor] alike. *)
Theorem rank_primitive_inverted (this : Leaderboard) (m : string) :
  (sortOrder (leaderboardOptions this) = Num Descending →
     commands (getRankFor this m) = [ZRANK (leaderboardName this) m] ∧
     commands (getRankWithScoreFor this m)
     = [ZSCORE (leaderboardName this) m; ZRANK (leaderboardName this) m]) ∧
  (sortOrder (leaderboardOptions this) = Num Ascending →
     commands (getRankFor this m) = [ZREVRANK (leaderboardName this) m] ∧
     commands (getRankWithScoreFor this m)
     = [ZSCORE (leaderboardName this) m; ZREVRANK (leaderboardName this) m]).
Proof.
  unfold getRankFor, getRankWithScoreFor.
  split; intros ->; done.
Qed.

Lemma rank_primitive_inverted_witness :
  commands (getRankFor (scores Descending) "A") = [ZRANK "scores" "A"] ∧
  commands (getRankFor (scores Ascending) "A") = [ZREVRANK "scores" "A"].
Proof.
  destruct (rank_primitive_inverted (scores Descending) "A") as [Hd _].
  destruct (rank_primitive_inverted (scores Ascending) "A") as [_ Ha].
  split; [exact (proj1 (Hd eq_refl)) | exact (proj1 (Ha eq_refl))].
Defined.

(** ** Absent members *)

Lemma strict_loose_Num (v : jsval) (n : number) :
  loose_eq v (Num n) = strict_eq v (Num n).
Proof. by destruct v. Qed.


Lemma getRankFor_absent (this : Leaderboard) (m : string) (d : database) :
  zset_at d (leaderboardName this) !! m = None →
  run connected (getRankFor this m) d = (d, Callback None Null).
Proof.
  intros Hm. rewrite run_getRankFor.
  apply zrank_None in Hm as Hr. apply zrevrank_None in Hm as Hr'.
  rewrite Hr, Hr'. by destruct (strict_eq _ _).
Qed.

Lemma getScoreFor_absent (this : Leaderboard) (m : string) (d : database) :
  zset_at d (leaderboardName this) !! m = None →
  run connected (getScoreFor this m) d = (d, Callback None (Num NaN)).
Proof. intros Hm. by rewrite run_getScoreFor, Hm. Qed.

Lemma getRankWithScoreFor_absent (this : Leaderboard) (m : string) (d : database) :
  zset_at d (leaderboardName this) !! m = None →
  run connected (getRankWithScoreFor this m) d
  = (d, Callback None (Some {| rank := Num (Fin (0 + 1)); score := Null |})).
Proof.
  intros Hm. rewrite run_getRankWithScoreFor.
  apply zrank_None in Hm as Hr. apply zrevrank_None in Hm as Hr'.
  rewrite Hm, Hr, Hr'. by destruct (loose_eq _ _).
Qed.

(** C3, at a member that is not in the leaderboard: [getRankWithScoreFor]
    calls back with the object [{ rank: 1, score: null }], while
    [getRankFor] calls back with [null] and [getScoreFor] with [NaN]; the
    pair matches neither single query and is not the null result. *)
Theorem getRankWithScoreFor_absent_not_null :
  snd (run connected (getRankWithScoreFor (scores Ascending) "Z") abc_store)
  = Callback None (Some {| rank := Num (Fin 1); score := Null |}) ∧
  snd (run connected (getRankFor (scores Ascending) "Z") abc_store)
  = Callback None Null ∧
  snd (run connected (getScoreFor (scores Ascending) "Z") abc_store)
  = Callback None (Num NaN).
Proof. by vm_compute. Qed.

(** C4, at a member that is not in the leaderboard: the store answers
    [ZSCORE] with nil and no error, and [getScoreFor] calls back with
    [parseFloat(null)], which is [NaN], not [null]. *)
Theorem getScoreFor_absent_is_NaN :
  run connected (getScoreFor (scores Ascending) "Z") abc_store
  = (abc_store, Callback None (Num NaN)) ∧
  snd (run connected (getScoreFor (scores Ascending) "Z") abc_store)
  ≠ Callback None Null.
Proof.
  rewrite getScoreFor_absent by (by vm_compute).
  split; [done | discriminate].
Qed.

(** ** Store errors *)

(** C5: whatever the client does, when it reports an error [getScoreFor]
    and [getRankWithScoreFor] call back with no error and a null result;
    when it reports none they call back with the value derived from the
    reply: the parsed score, and the pair of the second reply plus one and
    the first reply. *)
Theorem store_error_becomes_null (client : RedisClient) (this : Leaderboard)
    (m : string) (d d1 d2 : database) (e1 e2 : error) (reply : jsval)
    (replies : option (list jsval)) :
  send client (ZSCORE (leaderboardName this) m) d = (d1, (e1, reply)) →
  exec client (commands (getRankWithScoreFor this m)) d = (d2, (e2, replies)) →
  run client (getScoreFor this m) d
  = (d1, match e1 with
         | Some _ => Callback None Null
         | None => Callback None (parseFloat reply)
         end) ∧
  run client (getRankWithScoreFor this m) d
  = (d2, match e2, replies with
         | Some _, _ => Callback None None
         | None, Some rs =>
             Callback None (Some {| rank := plus (at_index rs 1) (Num (Fin 1));
                                    score := at_index rs 0 |})
         | None, None => Throws "cannot read property 1 of undefined"
         end).
Proof.
  intros Hsend Hexec. split.
  - unfold getScoreFor; cbn [run]. rewrite Hsend. by destruct e1.
  - revert Hexec. unfold getRankWithScoreFor.
    destruct (loose_eq _ _); cbn [commands run]; intros ->;
      by destruct e2, replies.
Qed.

Lemma store_error_becomes_null_witness :
  run (failing "ECONNREFUSED") (getScoreFor (scores Ascending) "A") abc_store
  = (abc_store, Callback None Null) ∧
  run (failing "ECONNREFUSED") (getRankWithScoreFor (scores Ascending) "A") abc_store
  = (abc_store, Callback None None).
Proof.
  exact (store_error_becomes_null (failing "ECONNREFUSED") (scores Ascending) "A"
           abc_store abc_store abc_store (Some "ECONNREFUSED") (Some "ECONNREFUSED")
           Undefined None eq_refl eq_refl).
Defined.

(** ** Pages *)

Lemma run_getPageFor (this : Leaderboard) (m : string) (param2 : option jsval)
    (d : database) :
  run connected (getPageFor this m param2) d
  = (d, Callback None
          (Math_ceil
             (divide
                match zrank (zset_at d (leaderboardName this)) m with
                | Some i => Num (of_Z (Z.of_nat i + 1))
                | None => Num (Fin 0)
                end
                (effective_pageSize this param2)))).
Proof.
  unfold getPageFor, effective_pageSize.
  cbn [run connected exec apply_all apply at_index nth].
  destruct (zrank _ m) as [i|]; cbn [index_reply]; [|done].
  by rewrite plus_integer.
Qed.

Lemma run_pageCount (this : Leaderboard) (param1 : option jsval) (d : database) :
  run connected (pageCount this param1) d
  = (d, Callback None
          (Math_ceil
             (divide (Num (of_Z (Z.of_nat (size (zset_at d (leaderboardName this))))))
                     (effective_pageSize this param1)))).
Proof. done. Qed.

Lemma Qdiv_0_l (p : Q) : 0 / p == 0.
Proof. unfold Qdiv. apply Qmult_0_l. Qed.

Lemma Qdiv_same (p : Q) : 0 < p → p / p == 1.
Proof.
  intros Hp. unfold Qdiv. apply Qmult_inv_r.
  intros H. rewrite H in Hp. by apply Qlt_irrefl in Hp.
Qed.

(** The page in terms of the position the method looks up: for a positive
    page size [p], explicit or configured, [getPageFor(m, p)] is 0 when [m]
    is not in the leaderboard and [ceil(r / p)] when [m] is in it, where
    [r] is the member's ascending position plus one, whatever the sort
    order; that page is at least 1. *)
Theorem getPageFor_page (this : Leaderboard) (m : string) (param2 : option jsval)
    (p : Q) (d : database) :
  0 < p →
  effective_pageSize this param2 = Num (Fin p) →
  (zset_at d (leaderboardName this) !! m = None →
     run connected (getPageFor this m param2) d = (d, Callback None (Num (Fin 0)))) ∧
  (∀ i : nat,
     zrank (zset_at d (leaderboardName this)) m = Some i →
     let r := (Z.of_nat i + 1)%Z in
     run connected (getPageFor this m param2) d
     = (d, Callback None (Num (of_Z (Qceiling (inject_Z r / p))))) ∧
     (1 <= Qceiling (inject_Z r / p))%Z).
Proof.
  intros Hp Hsize. rewrite run_getPageFor, Hsize. split.
  - intros Hm. apply zrank_None in Hm as ->. cbv iota.
    change (Fin 0) with (of_Z 0) at 1. rewrite (ceil_divide 0 p Hp).
    by rewrite (Qceiling_zero (inject_Z 0 / p) (Qdiv_0_l p)).
  - intros i -> r. cbv iota. rewrite (ceil_divide _ p Hp). split; [done|].
    apply Qceiling_ge_1. apply Qlt_shift_div_l; [exact Hp|].
    rewrite Qmult_0_l. change 0 with (inject_Z 0). rewrite <- Zlt_Qlt. lia.
Qed.

Lemma getPageFor_page_witness :
  run connected (getPageFor (scores Ascending) "Z" (Some (Num (Fin 2)))) abc_store
  = (abc_store, Callback None (Num (Fin 0))) ∧
  run connected (getPageFor (scores Ascending) "C" (Some (Num (Fin 2)))) abc_store
  = (abc_store, Callback None (Num (Fin 2))).
Proof.
  assert (Hp : 0 < 2) by reflexivity.
  destruct (getPageFor_page (scores Ascending) "Z" (Some (Num (Fin 2))) 2 abc_store
              Hp eq_refl) as [Habsent _].
  destruct (getPageFor_page (scores Ascending) "C" (Some (Num (Fin 2))) 2 abc_store
              Hp eq_refl) as [_ Hpresent].
  split.
  - apply Habsent. by vm_compute.
  - apply (Hpresent 2%nat). by vm_compute.
Defined.

(** C7: for a positive page size [p], explicit or configured, [pageCount]
    is [ceil(n / p)] for a leaderboard of [n] members: 0 when it is empty,
    1 when [n = p] and 2 when [n = p + 1]. *)
Theorem pageCount_ceiling (this : Leaderboard) (param1 : option jsval)
    (p : Q) (d : database) :
  0 < p →
  effective_pageSize this param1 = Num (Fin p) →
  let n := Z.of_nat (size (zset_at d (leaderboardName this))) in
  run connected (pageCount this param1) d
  = (d, Callback None (Num (of_Z (Qceiling (inject_Z n / p))))) ∧
  (n = 0%Z → Qceiling (inject_Z n / p) = 0%Z) ∧
  (inject_Z n == p → Qceiling (inject_Z n / p) = 1%Z) ∧
  (inject_Z n == p + 1 → Qceiling (inject_Z n / p) = 2%Z).
Proof.
  intros Hp Hsize n. rewrite run_pageCount, Hsize. fold n.
  rewrite (ceil_divide n p Hp). split; [done|]. split; [|split].
  - intros ->. apply Qceiling_zero, Qdiv_0_l.
  - intros ->. by rewrite (Qdiv_same p Hp).
  - intros Hn.
    assert (H1 : 1 <= p).
    { assert (Hk : p == inject_Z (n - 1)).
      { unfold Z.sub. rewrite inject_Z_plus, Hn.
        change (inject_Z (- (1))) with (- (1)). lra. }
      rewrite Hk in Hp |- *. change 0 with (inject_Z 0) in Hp.
      change 1 with (inject_Z 1). rewrite <- Zlt_Qlt in Hp.
      rewrite <- Zle_Qle. lia. }
    rewrite Hn. apply Qceiling_unique.
    + apply Qlt_shift_div_l; [exact Hp|].
      change (inject_Z (2 - 1)) with 1. lra.
    + apply Qle_shift_div_r; [exact Hp|].
      change (inject_Z 2) with 2. lra.
Qed.

Lemma pageCount_ceiling_witness :
  run connected (pageCount (scores Ascending) (Some (Num (Fin 2)))) abc_store
  = (abc_store, Callback None (Num (Fin 2))).
Proof.
  assert (Hp : 0 < 2) by reflexivity.
  destruct (pageCount_ceiling (scores Ascending) (Some (Num (Fin 2))) 2 abc_store
              Hp eq_refl) as [Hrun _].
  exact Hrun.
Defined.

(** [getPageFor] always asks for the ascending position, whatever the sort
    order; its rank is the one [getRankFor] reports on a Descending
    leaderboard only. *)
Lemma getPageFor_commands (this : Leaderboard) (m : string) (param2 : option jsval) :
  commands (getPageFor this m param2) = [ZRANK (leaderboardName this) m].
Proof. done. Qed.

(** C6, on the members A:10, B:20, C:30 with page size 1.  On the
    Ascending leaderboard [getRankFor(A)] is 3, so the page of A by its
    rank is [ceil(3 / 1) = 3], but [getPageFor(A, 1)] is 1.  On the
    Descending leaderboard C has the highest score and comes first in
    descending order, but [getPageFor(C, 1)] is 3.  The method sends the
    same command on both leaderboards and so reports the same page. *)
Theorem getPageFor_ignores_sortOrder :
  snd (run connected (getRankFor (scores Ascending) "A") abc_store)
  = Callback None (Num (Fin 3)) ∧
  snd (run connected (getPageFor (scores Ascending) "A" (Some (Num (Fin 1)))) abc_store)
  = Callback None (Num (Fin 1)) ∧
  snd (run connected (getPageFor (scores Descending) "C" (Some (Num (Fin 1)))) abc_store)
  = Callback None (Num (Fin 3)) ∧
  snd (run connected (getPageFor (scores Ascending) "C" (Some (Num (Fin 1)))) abc_store)
  = Callback None (Num (Fin 3)) ∧
  commands (getPageFor (scores Ascending) "C" (Some (Num (Fin 1))))
  = commands (getPageFor (scores Descending) "C" (Some (Num (Fin 1)))).
Proof. by vm_compute. Qed.

(** ** Ranking a member *)

Lemma run_rankMember (this : Leaderboard) (m : string) (s : Q) (d : database) :
  run connected (rankMember this m s) d
  = (<[leaderboardName this := <[m := s]> (zset_at d (leaderboardName this))]> d,
     Callback None
       (integer (if zset_at d (leaderboardName this) !! m is Some _ then 0 else 1))).
Proof. done. Qed.

Lemma run_memberCount (this : Leaderboard) (d : database) :
  run connected (memberCount this) d
  = (d, Callback None (integer (size (zset_at d (leaderboardName this))))).
Proof. done. Qed.

(** C8: after [rankMember(m, s)], [getScoreFor(m)] calls back with [s];
    the member's entry is replaced, and when [m] was already in the
    leaderboard [memberCount] is what it was before. *)
Theorem rankMember_getScoreFor (this : Leaderboard) (m : string) (s : Q)
    (d : database) :
  let d1 := fst (run connected (rankMember this m s) d) in
  run connected (getScoreFor this m) d1 = (d1, Callback None (Num (Fin s))) ∧
  zset_at d1 (leaderboardName this) = <[m := s]> (zset_at d (leaderboardName this)) ∧
  (is_Some (zset_at d (leaderboardName this) !! m) →
     snd (run connected (memberCount this) d1)
     = snd (run connected (memberCount this) d)).
Proof.
  intros d1.
  assert (Hz : zset_at d1 (leaderboardName this)
               = <[m := s]> (zset_at d (leaderboardName this))).
  { unfold d1. rewrite run_rankMember. apply zset_at_insert. }
  split; [|split].
  - by rewrite run_getScoreFor, Hz, lookup_insert_eq.
  - exact Hz.
  - intros Hm. rewrite !run_memberCount, Hz. cbn [snd].
    by rewrite map_size_insert_Some.
Qed.

Lemma rankMember_getScoreFor_witness :
  let d1 := fst (run connected (rankMember (scores Ascending) "B" 7) abc_store) in
  snd (run connected (getScoreFor (scores Ascending) "B") d1)
  = Callback None (Num (Fin 7)) ∧
  snd (run connected (memberCount (scores Ascending)) d1)
  = Callback None (Num (Fin 3)).
Proof.
  intros d1.
  destruct (rankMember_getScoreFor (scores Ascending) "B" 7 abc_store)
    as (Hscore & _ & Hcount).
  fold d1 in Hscore, Hcount. split.
  - by rewrite Hscore.
  - rewrite Hcount; [by vm_compute|]. exists 20. by vm_compute.
Defined.

(** ** The page size *)

Lemma guarded_pageSize_positive (lo : ILeaderboardOptions) :
  positive
    (pageSize
       (if negb (ToBoolean (pageSize lo)) || lt0 (pageSize lo)
        then {| name := name lo; pageSize := Num DEFAULT_PAGE_SIZE;
                sortOrder := sortOrder lo |}
        else lo))
  = true.
Proof.
  destruct (negb (ToBoolean (pageSize lo)) || lt0 (pageSize lo)) eqn:Hguard;
    [done|].
  destruct (pageSize lo) as [| |[q| |[|]]]; try done.
  revert Hguard. cbn [ToBoolean lt0 ToNumber positive].
  unfold is_zero, is_neg. by destruct (Qnum q).
Qed.

(** A leaderboard that comes out of the constructor has a positive page
    size: a missing, zero, negative or NaN value has been replaced by 50. *)
Lemma constructor_pageSize_positive
    (createClient : jsval → option string → completion RedisClient)
    (n : string) (lo : ILeaderboardOptions) (ro : IRedisOptions)
    (this : Leaderboard) :
  constructor createClient n (Some lo) (Some ro) = Normal this →
  positive (get_pageSize this) = true.
Proof.
  unfold constructor, get_pageSize.
  destruct (createClient _ _); intros [= <-]. cbn [leaderboardOptions].
  destruct (negb (ToBoolean (sortOrder _))); cbn [pageSize];
    apply guarded_pageSize_positive.
Qed.

Lemma constructor_defaults :
  constructor createClient_connected "scores"
    (Some {| name := None; pageSize := Undefined; sortOrder := Undefined |})
    (Some {| host := None; port := Undefined; db := None |})
  = Normal (scores Ascending).
Proof. reflexivity. Qed.

Lemma constructor_nonpositive_pageSize :
  constructor createClient_connected "scores"
    (Some {| name := None; pageSize := Num (Fin 0); sortOrder := Num Ascending |})
    (Some local_redis)
  = Normal (scores Ascending) ∧
  constructor createClient_connected "scores"
    (Some {| name := None; pageSize := Num (Fin (-5)); sortOrder := Num Ascending |})
    (Some local_redis)
  = Normal (scores Ascending).
Proof. split; reflexivity. Qed.

(** The example of the constructor's own documentation,
    [new Leaderboard('Scores')], throws, whatever the client library. *)
Lemma constructor_without_options
    (createClient : jsval → option string → completion RedisClient) :
  constructor createClient "Scores" None None
  = TypeError "cannot read property host of undefined".
Proof. reflexivity. Qed.

(** C9, at the setter: on a leaderboard built with the default page size,
    [pageSize = 0] and [pageSize = -1] are stored as they are, and the
    page size is no longer positive. *)
Theorem set_pageSize_not_positive :
  positive (get_pageSize (scores Ascending)) = true ∧
  get_pageSize (set_pageSize (scores Ascending) (Num (Fin 0))) = Num (Fin 0) ∧
  positive (get_pageSize (set_pageSize (scores Ascending) (Num (Fin 0)))) = false ∧
  get_pageSize (set_pageSize (scores Ascending) (Num (Fin (-1)))) = Num (Fin (-1)) ∧
  positive (get_pageSize (set_pageSize (scores Ascending) (Num (Fin (-1))))) = false.
Proof. by vm_compute. Qed.

(** ** getTop *)

Lemma getTop_does_nothing (client : RedisClient) (this : Leaderboard)
    (param1 : jsval) (param2 : option jsval) (d : database) :
  commands (getTop this param1 param2) = [] ∧
  run client (getTop this param1 param2) d = (d, NoCallback).
Proof. done. Qed.

(** C10, at [getTop(0, 2)] on the members A:10, B:20, C:30: the method
    sends nothing to the store and never calls back, so no window of
    entries is returned. *)
Theorem getTop_never_calls_back :
  commands (getTop (scores Descending) (Num (Fin 0)) (Some (Num (Fin 2)))) = [] ∧
  run connected (getTop (scores Descending) (Num (Fin 0)) (Some (Num (Fin 2)))) abc_store
  = (abc_store, NoCallback) ∧
  run connected (getTop (scores Descending) (Num (Fin 2)) None) abc_store
  = (abc_store, NoCallback).
Proof.
  split; [|split]; reflexivity.
Qed.

(** * Further properties of the engine *)

(** ** How each method reports a store error *)

(** X1: [getRankFor] looks at the reply only.  Whatever the client reports,
    a missing reply ([null] or [undefined]) gives [callback(null, null)], so
    a store error is dropped; a reply that is there gives the reply plus one
    together with the client's error argument. *)
Theorem getRankFor_any_client (client : RedisClient) (this : Leaderboard)
    (m : string) (c : command) (d d' : database) (e : error) (r : jsval) :
  commands (getRankFor this m) = [c] →
  send client c d = (d', (e, r)) →
  run client (getRankFor this m) d
  = (d', if loose_eq r Null then Callback None Null
         else Callback e (plus r (Num (Fin 1)))).
Proof.
  unfold getRankFor.
  destruct (strict_eq _ _); cbn [commands run]; intros [= <-] ->;
    by destruct (loose_eq r Null).
Qed.

Lemma getRankFor_any_client_witness :
  run (failing "ECONNREFUSED") (getRankFor (scores Ascending) "A") abc_store
  = (abc_store, Callback None Null).
Proof.
  exact (getRankFor_any_client (failing "ECONNREFUSED") (scores Ascending) "A"
           (ZREVRANK "scores" "A") abc_store abc_store (Some "ECONNREFUSED")
           Undefined eq_refl eq_refl).
Defined.

(** X2: [getPageFor] reads [replies[0]] before it looks at the error.  When
    the batch fails and no replies array comes back the method throws and
    the callback is never invoked; when replies come back the callback gets
    the client's error argument unchanged, next to the computed page. *)
Theorem getPageFor_any_client (client : RedisClient) (this : Leaderboard)
    (m : string) (param2 : option jsval) (d d' : database) (e : error)
    (replies : option (list jsval)) :
  exec client [ZRANK (leaderboardName this) m] d = (d', (e, replies)) →
  run client (getPageFor this m param2) d
  = (d', match replies with
         | None => Throws "cannot read property 0 of undefined"
         | Some rs =>
             Callback e
               (Math_ceil
                  (divide (if loose_eq (at_index rs 0) Null then Num (Fin 0)
                           else plus (at_index rs 0) (Num (Fin 1)))
                          (effective_pageSize this param2)))
         end).
Proof.
  intros Hexec. unfold getPageFor. cbn [run]. rewrite Hexec.
  by destruct replies.
Qed.

Lemma getPageFor_any_client_witness :
  run (failing "ECONNREFUSED") (getPageFor (scores Ascending) "A" None) abc_store
  = (abc_store, Throws "cannot read property 0 of undefined").
Proof.
  exact (getPageFor_any_client (failing "ECONNREFUSED") (scores Ascending) "A"
           None abc_store abc_store (Some "ECONNREFUSED") None eq_refl).
Defined.

(** X3: [pageCount] hands the client's error on, and with the [undefined]
    reply of a failed call the page count it computes is [NaN], whatever
    the page size. *)
Theorem pageCount_store_error (client : RedisClient) (this : Leaderboard)
    (param1 : option jsval) (d d' : database) (e : error) :
  send client (ZCARD (leaderboardName this)) d = (d', (e, Undefined)) →
  run client (pageCount this param1) d = (d', Callback e (Num NaN)).
Proof.
  intros Hsend. unfold pageCount. cbn [run]. by rewrite Hsend.
Qed.

Lemma pageCount_store_error_witness :
  run (failing "ECONNREFUSED") (pageCount (scores Ascending) None) abc_store
  = (abc_store, Callback (Some "ECONNREFUSED") (Num NaN)).
Proof.
  exact (pageCount_store_error (failing "ECONNREFUSED") (scores Ascending) None
           abc_store abc_store (Some "ECONNREFUSED") eq_refl).
Defined.


(** ** Effects on the store *)

Lemma zset_at_insert_ne (d : database) (k k' : string) (z : zset) :
  k ≠ k' → zset_at (<[k := z]> d) k' = zset_at d k'.
Proof. intros Hne. unfold zset_at. by rewrite lookup_insert_ne. Qed.

Lemma zset_at_delete (d : database) (k : string) : zset_at (delete k d) k = ∅.
Proof. unfold zset_at. by rewrite lookup_delete_eq. Qed.

Lemma zset_at_delete_ne (d : database) (k k' : string) :
  k ≠ k' → zset_at (delete k d) k' = zset_at d k'.
Proof. intros Hne. unfold zset_at. by rewrite lookup_delete_ne. Qed.

Lemma apply_ZREM_own (d : database) (k m : string) :
  zset_at (apply (ZREM k m) d).1 k = delete m (zset_at d k).
Proof.
  cbn [apply fst]. destruct (decide _) as [Hsize|_].
  - apply map_size_empty_inv in Hsize. by rewrite zset_at_delete, Hsize.
  - apply zset_at_insert.
Qed.

Lemma apply_other_key (c : command) (d : database) (k : string) :
  key_of c ≠ k → zset_at (apply c d).1 k = zset_at d k.
Proof.
  destruct c; cbn [apply fst key_of]; intros Hne; try done.
  - by apply zset_at_delete_ne.
  - by apply zset_at_insert_ne.
  - destruct (decide _); [by apply zset_at_delete_ne | by apply zset_at_insert_ne].
Qed.

Lemma apply_read_only (c : command) (d : database) :
  read_only c = true → (apply c d).1 = d.
Proof. by destruct c. Qed.

Lemma apply_all_read_only (cs : list command) (d : database) :
  Forall (λ c, read_only c = true) cs → (apply_all cs d).1 = d.
Proof.
  induction 1 as [|c cs Hc _ IH]; [done|]. cbn [apply_all].
  pose proof (apply_read_only c d Hc) as Hd.
  destruct (apply c d) as [d1 r]; cbn [fst] in Hd; subst d1.
  by destruct (apply_all cs d) as [d2 rs].
Qed.

Lemma run_read_only {T} (p : program T) (d : database) :
  Forall (λ c, read_only c = true) (commands p) → (run connected p d).1 = d.
Proof.
  destruct p as [c k|cs k|o]; cbn [commands run connected send exec]; intros Hp.
  - inversion_clear Hp as [|? ? Hc _].
    pose proof (apply_read_only c d Hc) as Hd.
    by destruct (apply c d).
  - pose proof (apply_all_read_only cs d Hp) as Hd.
    by destruct (apply_all cs d).
  - done.
Qed.

(** X4: every query method ([memberCount], [memberCountInRange],
    [pageCount], [getRankFor], [getScoreFor], [getRankWithScoreFor],
    [getPageFor], [getTop]) sends only reading commands, all on the
    leaderboard's own key, and leaves the store as it found it. *)
Theorem queries_read_only (this : Leaderboard) (m : string) (lo hi : Q)
    (param : option jsval) (param1 : jsval) (d : database) :
  let quiet {T} (p : program T) :=
    reads_own_key this p ∧ (run connected p d).1 = d in
  quiet (memberCount this) ∧
  quiet (memberCountInRange this lo hi) ∧
  quiet (pageCount this param) ∧
  quiet (getRankFor this m) ∧
  quiet (getScoreFor this m) ∧
  quiet (getRankWithScoreFor this m) ∧
  quiet (getPageFor this m param) ∧
  quiet (getTop this param1 param).
Proof.
  assert (Hquiet : ∀ T (p : program T),
            reads_own_key this p → reads_own_key this p ∧ (run connected p d).1 = d).
  { intros T p Hp. split; [done|]. apply run_read_only.
    eapply Forall_impl; [exact Hp | by intros c [? _]]. }
  cbv zeta. unfold reads_own_key in *.
  repeat split; try apply Hquiet;
    unfold getRankFor, getRankWithScoreFor;
    try destruct (strict_eq _ _); try destruct (loose_eq _ _);
    cbn [commands app]; by repeat constructor.
Qed.

(** X5: [rankMember(m, s)] calls back with 1 for a new member and 0 for a
    member that is re-ranked, the member count grows by one exactly for a
    new member, and the score of every other member stays what it was. *)
Theorem rankMember_effect (this : Leaderboard) (m : string) (s : Q) (d : database) :
  let d1 := (run connected (rankMember this m s) d).1 in
  let known := bool_decide (is_Some (zset_at d (leaderboardName this) !! m)) in
  (run connected (rankMember this m s) d).2
  = Callback None (Num (Fin (if known then 0 else 1))) ∧
  members this d1 = (if known then members this d else S (members this d)) ∧
  ∀ m' : string, m' ≠ m →
    (run connected (getScoreFor this m') d1).2
    = (run connected (getScoreFor this m') d).2.
Proof.
  intros d1 known.
  assert (Hz : zset_at d1 (leaderboardName this)
               = <[m := s]> (zset_at d (leaderboardName this)))
    by apply zset_at_insert.
  unfold members. rewrite Hz, run_rankMember, map_size_insert. subst known.
  destruct (zset_at d (leaderboardName this) !! m) as [s0|] eqn:Hm.
  - rewrite bool_decide_eq_true_2 by eauto. repeat split; try done.
    intros m' Hne. by rewrite !run_getScoreFor, Hz, lookup_insert_ne.
  - rewrite bool_decide_eq_false_2 by (by intros [? ?]). repeat split; try done.
    intros m' Hne. by rewrite !run_getScoreFor, Hz, lookup_insert_ne.
Qed.

(** X6: removing a member of the leaderboard calls back with 1; afterwards
    [getRankFor] gives [null] and [getScoreFor] gives [NaN] for it, the
    member count is one less, and the other members keep their scores. *)
Theorem removeMemember_present (this : Leaderboard) (m : string) (s : Q)
    (d : database) :
  zset_at d (leaderboardName this) !! m = Some s →
  let d1 := (run connected (removeMemember this m) d).1 in
  (run connected (removeMemember this m) d).2 = Callback None (Num (Fin 1)) ∧
  (run connected (getRankFor this m) d1).2 = Callback None Null ∧
  (run connected (getScoreFor this m) d1).2 = Callback None (Num NaN) ∧
  S (members this d1) = members this d ∧
  ∀ m' : string, m' ≠ m →
    (run connected (getScoreFor this m') d1).2
    = (run connected (getScoreFor this m') d).2.
Proof.
  intros Hm d1.
  assert (Hz : zset_at d1 (leaderboardName this)
               = delete m (zset_at d (leaderboardName this)))
    by apply apply_ZREM_own.
  assert (Hgone : zset_at d1 (leaderboardName this) !! m = None)
    by (by rewrite Hz, lookup_delete_eq).
  split; [|split; [|split; [|split]]].
  - unfold removeMemember. cbn [run connected send apply snd]. by rewrite Hm.
  - by rewrite getRankFor_absent.
  - by rewrite run_getScoreFor, Hgone.
  - unfold members. rewrite Hz, map_size_delete_Some by eauto.
    assert (size (zset_at d (leaderboardName this)) ≠ 0%nat)
      by (apply map_size_ne_0_lookup; eauto).
    lia.
  - intros m' Hne. by rewrite !run_getScoreFor, Hz, lookup_delete_ne.
Qed.

Lemma removeMemember_present_witness :
  (run connected (getScoreFor (scores Ascending) "B")
     (run connected (removeMemember (scores Ascending) "B") abc_store).1).2
  = Callback None (Num NaN).
Proof.
  assert (Hm : zset_at abc_store (leaderboardName (scores Ascending)) !! "B" = Some 20)
    by (by vm_compute).
  exact (proj1 (proj2 (proj2
           (removeMemember_present (scores Ascending) "B" 20 abc_store Hm)))).
Defined.

(** X7: removing a member that is not in the leaderboard calls back with 0
    and changes nothing: the leaderboard holds the same members with the
    same scores. *)
Theorem removeMemember_absent (this : Leaderboard) (m : string) (d : database) :
  zset_at d (leaderboardName this) !! m = None →
  let d1 := (run connected (removeMemember this m) d).1 in
  (run connected (removeMemember this m) d).2 = Callback None (Num (Fin 0)) ∧
  zset_at d1 (leaderboardName this) = zset_at d (leaderboardName this) ∧
  members this d1 = members this d.
Proof.
  intros Hm d1.
  assert (Hz : zset_at d1 (leaderboardName this) = zset_at d (leaderboardName this)).
  { transitivity (delete m (zset_at d (leaderboardName this)));
      [apply apply_ZREM_own | by apply delete_id]. }
  split; [|split].
  - unfold removeMemember. cbn [run connected send apply snd]. by rewrite Hm.
  - exact Hz.
  - unfold members. by rewrite Hz.
Qed.

Lemma removeMemember_absent_witness :
  (run connected (removeMemember (scores Ascending) "Z") abc_store).2
  = Callback None (Num (Fin 0)).
Proof.
  assert (Hm : zset_at abc_store (leaderboardName (scores Ascending)) !! "Z" = None)
    by (by vm_compute).
  exact (proj1 (removeMemember_absent (scores Ascending) "Z" abc_store Hm)).
Defined.

(** X8: after [deleteLeaderboard] the leaderboard is empty: the member
    count is 0, every member has rank [null] and score [NaN], and deleting
    it again calls back with 0.  The first call reports 1 when the key was
    in the store and 0 when it was not. *)
Theorem deleteLeaderboard_empties (this : Leaderboard) (d : database) :
  let d1 := (run connected (deleteLeaderboard this) d).1 in
  (run connected (deleteLeaderboard this) d).2
  = Callback None
      (Num (Fin (if bool_decide (is_Some (d !! leaderboardName this)) then 1 else 0))) ∧
  (run connected (memberCount this) d1).2 = Callback None (Num (Fin 0)) ∧
  (∀ m : string,
     (run connected (getRankFor this m) d1).2 = Callback None Null ∧
     (run connected (getScoreFor this m) d1).2 = Callback None (Num NaN)) ∧
  (run connected (deleteLeaderboard this) d1).2 = Callback None (Num (Fin 0)).
Proof.
  intros d1.
  assert (Hz : zset_at d1 (leaderboardName this) = ∅) by apply zset_at_delete.
  split; [|split; [|split]].
  - unfold deleteLeaderboard. cbn [run connected send apply snd].
    destruct (d !! leaderboardName this) eqn:Hk.
    + by rewrite bool_decide_eq_true_2 by eauto.
    + by rewrite bool_decide_eq_false_2 by (by intros [? ?]).
  - by rewrite run_memberCount, Hz, map_size_empty.
  - intros m. split.
    + by rewrite getRankFor_absent by (by rewrite Hz, lookup_empty).
    + by rewrite run_getScoreFor, Hz, lookup_empty.
  - unfold deleteLeaderboard. cbn [run connected send apply snd].
    unfold d1, deleteLeaderboard. cbn [run connected send apply fst].
    by rewrite lookup_delete_eq.
Qed.

(** X9: [rankMember], [removeMemember] and [deleteLeaderboard] only touch
    the leaderboard's own key: a leaderboard with another name keeps its
    members, and its rank, score and count queries answer as before. *)
Theorem mutations_touch_own_key (this other : Leaderboard) (m : string) (s : Q)
    (d d1 : database) :
  leaderboardName other ≠ leaderboardName this →
  d1 ∈ [ (run connected (rankMember this m s) d).1;
         (run connected (removeMemember this m) d).1;
         (run connected (deleteLeaderboard this) d).1 ] →
  zset_at d1 (leaderboardName other) = zset_at d (leaderboardName other) ∧
  (run connected (memberCount other) d1).2 = (run connected (memberCount other) d).2 ∧
  ∀ m' : string,
    (run connected (getRankFor other m') d1).2
    = (run connected (getRankFor other m') d).2 ∧
    (run connected (getScoreFor other m') d1).2
    = (run connected (getScoreFor other m') d).2.
Proof.
  intros Hne Hd1.
  assert (Hz : zset_at d1 (leaderboardName other) = zset_at d (leaderboardName other)).
  { rewrite !elem_of_cons, elem_of_nil in Hd1.
    destruct Hd1 as [->|[->|[->|[]]]];
      [apply (apply_other_key (ZADD _ s m)) | apply (apply_other_key (ZREM _ m))
       | apply (apply_other_key (DEL _))]; cbn [key_of]; congruence. }
  split; [exact Hz|]. split.
  - by rewrite !run_memberCount, Hz.
  - intros m'. by rewrite !run_getRankFor, !run_getScoreFor, Hz.
Qed.

Lemma mutations_touch_own_key_witness :
  (run connected (memberCount (scores Ascending))
     (run connected
        (deleteLeaderboard
           {| leaderboardName := "other";
              leaderboardOptions := leaderboardOptions (scores Ascending);
              redisOptions := local_redis;
              client := connected |}) abc_store).1).2
  = (run connected (memberCount (scores Ascending)) abc_store).2.
Proof.
  refine (proj1 (proj2
    (mutations_touch_own_key
       {| leaderboardName := "other";
          leaderboardOptions := leaderboardOptions (scores Ascending);
          redisOptions := local_redis;
          client := connected |}
       (scores Ascending) "A" 1 abc_store _ _ _))).
  - by vm_compute.
  - rewrite !elem_of_cons. right; right; left. reflexivity.
Defined.

(** ** Ranks *)

Lemma precedes_of_lt (a b : string * Q) : a.2 < b.2 → precedes a b = true.
Proof. unfold precedes. rewrite Qlt_alt. by intros ->. Qed.

Lemma precedes_le (a b : string * Q) : precedes a b = true → a.2 <= b.2.
Proof.
  unfold precedes. rewrite Qle_alt. by destruct (a.2 ?= b.2).
Qed.

Lemma precedes_lower (e a b : string * Q) :
  a.2 < b.2 → precedes e a = true → precedes e b = true.
Proof.
  intros Hab He%precedes_le. apply precedes_of_lt.
  by eapply Qle_lt_trans.
Qed.

Lemma precedes_higher (e a b : string * Q) :
  a.2 < b.2 → precedes b e = true → precedes a e = true.
Proof.
  intros Hab He%precedes_le. apply precedes_of_lt.
  by eapply Qlt_le_trans.
Qed.

Lemma filter_length_le (p q : string * Q → bool) (l : list (string * Q)) :
  (∀ e, e ∈ l → p e = true → q e = true) →
  (length (List.filter p l) <= length (List.filter q l))%nat.
Proof.
  induction l as [|a l IH]; [done|]. intros Hpq.
  assert (IH' := IH (λ e He, Hpq e (list_elem_of_further _ _ _ He))).
  cbn [List.filter]. destruct (p a) eqn:Hp.
  - rewrite (Hpq a (list_elem_of_here _ _) Hp). cbn [length]. lia.
  - destruct (q a); cbn [length]; lia.
Qed.

Lemma filter_length_lt (p q : string * Q → bool) (l : list (string * Q))
    (x : string * Q) :
  (∀ e, e ∈ l → p e = true → q e = true) →
  x ∈ l → p x = false → q x = true →
  (length (List.filter p l) < length (List.filter q l))%nat.
Proof.
  induction l as [|a l IH]; [by intros _ ?%elem_of_nil|].
  intros Hpq Hx Hpx Hqx.
  assert (Hpq' : ∀ e, e ∈ l → p e = true → q e = true)
    by (intros e He; apply Hpq; by apply list_elem_of_further).
  cbn [List.filter]. apply elem_of_cons in Hx as [<-|Hx].
  - rewrite Hpx, Hqx. cbn [length].
    pose proof (filter_length_le p q l Hpq'). lia.
  - pose proof (IH Hpq' Hx Hpx Hqx).
    destruct (p a) eqn:Hp.
    + rewrite (Hpq a (list_elem_of_here _ _) Hp). cbn [length]. lia.
    + destruct (q a); cbn [length]; lia.
Qed.

Lemma zrank_lt (z : zset) (a b : string) (sa sb : Q) :
  z !! a = Some sa → z !! b = Some sb → sa < sb →
  ∃ i j : nat, zrank z a = Some i ∧ zrank z b = Some j ∧ (i < j)%nat.
Proof.
  intros Ha Hb Hlt. unfold zrank, count_if. rewrite Ha, Hb. cbn.
  do 2 eexists. split; [done|]. split; [done|].
  apply (filter_length_lt _ _ _ (a, sa)).
  - intros e _. by apply precedes_lower.
  - by apply elem_of_map_to_list.
  - apply precedes_irrefl.
  - by apply precedes_of_lt.
Qed.

Lemma zrevrank_lt (z : zset) (a b : string) (sa sb : Q) :
  z !! a = Some sa → z !! b = Some sb → sa < sb →
  ∃ i j : nat, zrevrank z a = Some i ∧ zrevrank z b = Some j ∧ (j < i)%nat.
Proof.
  intros Ha Hb Hlt. unfold zrevrank, count_if. rewrite Ha, Hb. cbn.
  do 2 eexists. split; [done|]. split; [done|].
  apply (filter_length_lt _ _ _ (b, sb)).
  - intros e _. by apply (precedes_higher e (a, sa) (b, sb)).
  - by apply elem_of_map_to_list.
  - apply precedes_irrefl.
  - by apply (precedes_of_lt (a, sa) (b, sb)).
Qed.

(** X10: the rank of a member of the leaderboard is a whole number between
    1 and the member count. *)
Theorem getRankFor_bounds (this : Leaderboard) (m : string) (s : Q) (d : database) :
  zset_at d (leaderboardName this) !! m = Some s →
  ∃ r : Z,
    (run connected (getRankFor this m) d).2 = Callback None (Num (of_Z r)) ∧
    (1 <= r <= Z.of_nat (members this d))%Z.
Proof.
  intros Hm. rewrite run_getRankFor.
  destruct (zrank_is_Some _ _ _ Hm) as [[i Hi] [j Hj]].
  pose proof (zrank_zrevrank _ _ _ _ Hi Hj) as Hsum. unfold members.
  destruct (strict_eq _ _); rewrite ?Hi, ?Hj; eexists; (split; [done|]); lia.
Qed.

Lemma getRankFor_bounds_witness :
  ∃ r : Z,
    (run connected (getRankFor (scores Ascending) "B") abc_store).2
    = Callback None (Num (of_Z r)) ∧
    (1 <= r <= Z.of_nat (members (scores Ascending) abc_store))%Z.
Proof.
  apply (getRankFor_bounds (scores Ascending) "B" 20 abc_store). by vm_compute.
Defined.

(** X11: the two sort orders mirror each other: for a member of a
    leaderboard of [n] members, the rank under Descending and the rank
    under Ascending add up to [n + 1]. *)
Theorem getRankFor_mirror (this : Leaderboard) (m : string) (s : Q) (d : database) :
  zset_at d (leaderboardName this) !! m = Some s →
  ∃ r r' : Z,
    (run connected (getRankFor (with_sortOrder this (Num Descending)) m) d).2
    = Callback None (Num (of_Z r)) ∧
    (run connected (getRankFor (with_sortOrder this (Num Ascending)) m) d).2
    = Callback None (Num (of_Z r')) ∧
    (r + r' = Z.of_nat (members this d) + 1)%Z.
Proof.
  intros Hm. rewrite !run_getRankFor. cbn [with_sortOrder leaderboardName
    leaderboardOptions sortOrder strict_eq].
  change (number_eqb Descending Descending) with true.
  change (number_eqb Ascending Descending) with false.
  destruct (zrank_is_Some _ _ _ Hm) as [[i Hi] [j Hj]].
  pose proof (zrank_zrevrank _ _ _ _ Hi Hj) as Hsum. unfold members.
  rewrite Hi, Hj. do 2 eexists. split; [done|]. split; [done|]. lia.
Qed.

Lemma getRankFor_mirror_witness :
  ∃ r r' : Z,
    (run connected (getRankFor (with_sortOrder (scores Ascending) (Num Descending)) "A")
       abc_store).2 = Callback None (Num (of_Z r)) ∧
    (run connected (getRankFor (with_sortOrder (scores Ascending) (Num Ascending)) "A")
       abc_store).2 = Callback None (Num (of_Z r')) ∧
    (r + r' = Z.of_nat (members (scores Ascending) abc_store) + 1)%Z.
Proof.
  apply (getRankFor_mirror (scores Ascending) "A" 10 abc_store). by vm_compute.
Defined.

(** X12: ranks follow the scores.  Of two members with different scores,
    a Descending leaderboard gives the smaller rank number to the lower
    score, and a leaderboard of any other sort order gives it to the higher
    score. *)
Theorem getRankFor_by_score (this : Leaderboard) (a b : string) (sa sb : Q)
    (d : database) :
  zset_at d (leaderboardName this) !! a = Some sa →
  zset_at d (leaderboardName this) !! b = Some sb →
  sa < sb →
  ∃ ra rb : Z,
    (run connected (getRankFor this a) d).2 = Callback None (Num (of_Z ra)) ∧
    (run connected (getRankFor this b) d).2 = Callback None (Num (of_Z rb)) ∧
    if strict_eq (sortOrder (leaderboardOptions this)) (Num Descending)
    then (ra < rb)%Z else (rb < ra)%Z.
Proof.
  intros Ha Hb Hlt. rewrite !run_getRankFor.
  destruct (zrank_lt _ _ _ _ _ Ha Hb Hlt) as (i & j & Hi & Hj & Hij).
  destruct (zrevrank_lt _ _ _ _ _ Ha Hb Hlt) as (i' & j' & Hi' & Hj' & Hij').
  destruct (strict_eq _ _); rewrite ?Hi, ?Hj, ?Hi', ?Hj';
    do 2 eexists; (split; [done|]); (split; [done|]); lia.
Qed.

Lemma getRankFor_by_score_witness :
  ∃ ra rb : Z,
    (run connected (getRankFor (scores Ascending) "A") abc_store).2
    = Callback None (Num (of_Z ra)) ∧
    (run connected (getRankFor (scores Ascending) "C") abc_store).2
    = Callback None (Num (of_Z rb)) ∧
    (rb < ra)%Z.
Proof.
  apply (getRankFor_by_score (scores Ascending) "A" "C" 10 30 abc_store);
    by vm_compute.
Defined.

(** X13: for every sort order value, the batch of [getRankWithScoreFor] is
    the score lookup followed by exactly the rank command [getRankFor]
    sends ([==] and [===] agree on the sort order); that command is [ZRANK]
    for Descending and [ZREVRANK] for every other value. *)
Theorem rank_command_shared (this : Leaderboard) (m : string) :
  commands (getRankWithScoreFor this m)
  = ZSCORE (leaderboardName this) m :: commands (getRankFor this m) ∧
  commands (getRankFor this m)
  = [if strict_eq (sortOrder (leaderboardOptions this)) (Num Descending)
     then ZRANK (leaderboardName this) m
     else ZREVRANK (leaderboardName this) m].
Proof.
  unfold getRankWithScoreFor, getRankFor. rewrite strict_loose_Num.
  by destruct (strict_eq _ _).
Qed.

(** ** Pages *)

Lemma Qdiv_le_compat (x y p : Q) : 0 < p → x <= y → x / p <= y / p.
Proof.
  intros Hp Hxy. unfold Qdiv. apply Qmult_le_compat_r; [exact Hxy|].
  apply Qlt_le_weak, Qinv_lt_0_compat, Hp.
Qed.

Lemma Qdiv_mult_cancel (x p : Q) : 0 < p → x / p * p == x.
Proof.
  intros Hp. field. intros H. rewrite H in Hp. by apply Qlt_irrefl in Hp.
Qed.

(** X14: with the same positive page size, the page [getPageFor] reports
    for a member of the leaderboard lies between 1 and the number of pages
    [pageCount] reports. *)
Theorem getPageFor_within_pageCount (this : Leaderboard) (m : string)
    (param : option jsval) (p s : Q) (d : database) :
  0 < p →
  effective_pageSize this param = Num (Fin p) →
  zset_at d (leaderboardName this) !! m = Some s →
  ∃ page pages : Z,
    (run connected (getPageFor this m param) d).2
    = Callback None (Num (of_Z page)) ∧
    (run connected (pageCount this param) d).2
    = Callback None (Num (of_Z pages)) ∧
    (1 <= page <= pages)%Z.
Proof.
  intros Hp Hsize Hm. rewrite run_getPageFor, run_pageCount, Hsize.
  destruct (zrank_is_Some _ _ _ Hm) as [[i Hi] [j Hj]].
  pose proof (zrank_zrevrank _ _ _ _ Hi Hj) as Hsum.
  rewrite Hi, !(ceil_divide _ p Hp). do 2 eexists.
  split; [done|]. split; [done|]. split.
  - apply Qceiling_ge_1, Qlt_shift_div_l; [exact Hp|].
    rewrite Qmult_0_l. change 0 with (inject_Z 0). rewrite <- Zlt_Qlt. lia.
  - apply Qceiling_resp_le, Qdiv_le_compat; [exact Hp|].
    rewrite <- Zle_Qle. lia.
Qed.

Lemma getPageFor_within_pageCount_witness :
  ∃ page pages : Z,
    (run connected (getPageFor (scores Ascending) "C" (Some (Num (Fin 2)))) abc_store).2
    = Callback None (Num (of_Z page)) ∧
    (run connected (pageCount (scores Ascending) (Some (Num (Fin 2)))) abc_store).2
    = Callback None (Num (of_Z pages)) ∧
    (1 <= page <= pages)%Z.
Proof.
  assert (Hp : 0 < 2) by reflexivity.
  apply (getPageFor_within_pageCount (scores Ascending) "C"
           (Some (Num (Fin 2))) 2 30 abc_store Hp eq_refl).
  by vm_compute.
Defined.

(** X15: the pages [pageCount] reports cover the members and none is
    spare: with a positive page size [p] and [n] members the result [k]
    satisfies [(k - 1) * p < n <= k * p]. *)
Theorem pageCount_covers (this : Leaderboard) (param1 : option jsval) (p : Q)
    (d : database) :
  0 < p →
  effective_pageSize this param1 = Num (Fin p) →
  ∃ k : Z,
    (run connected (pageCount this param1) d).2 = Callback None (Num (of_Z k)) ∧
    inject_Z (k - 1) * p < inject_Z (Z.of_nat (members this d)) ∧
    inject_Z (Z.of_nat (members this d)) <= inject_Z k * p.
Proof.
  intros Hp Hsize. rewrite run_pageCount, Hsize, (ceil_divide _ p Hp).
  eexists. split; [done|]. unfold members.
  set (n := inject_Z (Z.of_nat (size (zset_at d (leaderboardName this))))).
  pose proof (Qdiv_mult_cancel n p Hp) as Hn. split.
  - apply Qlt_le_trans with (n / p * p); [|by rewrite Hn; apply Qle_refl].
    apply Qmult_lt_compat_r; [exact Hp | apply Qceiling_lt].
  - apply Qle_trans with (n / p * p); [by rewrite Hn; apply Qle_refl|].
    apply Qmult_le_compat_r; [apply Qle_ceiling | by apply Qlt_le_weak].
Qed.

Lemma pageCount_covers_witness :
  ∃ k : Z,
    (run connected (pageCount (scores Ascending) (Some (Num (Fin 2)))) abc_store).2
    = Callback None (Num (of_Z k)) ∧
    inject_Z (k - 1) * 2 < inject_Z (Z.of_nat (members (scores Ascending) abc_store)) ∧
    inject_Z (Z.of_nat (members (scores Ascending) abc_store)) <= inject_Z k * 2.
Proof.
  assert (Hp : 0 < 2) by reflexivity.
  exact (pageCount_covers (scores Ascending) (Some (Num (Fin 2))) 2 abc_store
           Hp eq_refl).
Defined.

(** X16: a page size of zero is not guarded against.  [pageCount] then
    reports [NaN] for an empty leaderboard and [Infinity] otherwise, and
    [getPageFor] reports [NaN] for a member that is absent and [Infinity]
    for one that is present. *)
Theorem zero_pageSize (this : Leaderboard) (m : string) (param : option jsval)
    (d : database) :
  effective_pageSize this param = Num (Fin 0) →
  (run connected (pageCount this param) d).2
  = Callback None (Num (if decide (members this d = 0%nat) then NaN
                        else Infinity false)) ∧
  (run connected (getPageFor this m param) d).2
  = Callback None (Num (if zset_at d (leaderboardName this) !! m is Some _
                        then Infinity false else NaN)).
Proof.
  intros Hsize. rewrite run_pageCount, run_getPageFor, Hsize. unfold members. split.
  - destruct (size _) as [|n]; [done|].
    rewrite decide_False by done. done.
  - unfold zrank. destruct (_ !! m) as [s|]; cbn [mbind option_bind]; [|done].
    unfold Math_ceil, divide, div, ToNumber, of_Z, is_zero, is_neg.
    cbn [Qnum inject_Z Z.eqb].
    by destruct (Z.of_nat _ + 1)%Z eqn:Hr; [lia| |lia].
Qed.

Lemma zero_pageSize_witness :
  (run connected (pageCount (set_pageSize (scores Ascending) (Num (Fin 0))) None)
     abc_store).2
  = Callback None (Num (Infinity false)).
Proof.
  exact (proj1 (zero_pageSize (set_pageSize (scores Ascending) (Num (Fin 0))) "A"
                  None abc_store eq_refl)).
Defined.

(** X17: on an Ascending leaderboard [getPageFor] pages the opposite end
    of the ranking.  For a member with rank [r] by [getRankFor] among [n]
    members, the page is [ceil(r / p)] when the sort order is Descending
    and [ceil((n + 1 - r) / p)] for every other sort order. *)
Theorem getPageFor_of_rank (this : Leaderboard) (m : string)
    (param : option jsval) (p s : Q) (d : database) :
  0 < p →
  effective_pageSize this param = Num (Fin p) →
  zset_at d (leaderboardName this) !! m = Some s →
  ∃ r : Z,
    (run connected (getRankFor this m) d).2 = Callback None (Num (of_Z r)) ∧
    (run connected (getPageFor this m param) d).2
    = Callback None
        (Num (of_Z (Qceiling
           (inject_Z (if strict_eq (sortOrder (leaderboardOptions this))
                                   (Num Descending)
                      then r else Z.of_nat (members this d) + 1 - r) / p)))).
Proof.
  intros Hp Hsize Hm. rewrite run_getRankFor, run_getPageFor, Hsize.
  destruct (zrank_is_Some _ _ _ Hm) as [[i Hi] [j Hj]].
  pose proof (zrank_zrevrank _ _ _ _ Hi Hj) as Hsum. unfold members.
  rewrite Hi, Hj, (ceil_divide _ p Hp).
  destruct (strict_eq _ _); eexists; (split; [done|]); cbn [snd]; [done|].
  rewrite <- Hsum.
  by replace (Z.of_nat (i + j + 1) + 1 - (Z.of_nat j + 1))%Z
    with (Z.of_nat i + 1)%Z by lia.
Qed.

Lemma getPageFor_of_rank_witness :
  ∃ r : Z,
    (run connected (getRankFor (scores Ascending) "A") abc_store).2
    = Callback None (Num (of_Z r)) ∧
    (run connected (getPageFor (scores Ascending) "A" (Some (Num (Fin 2)))) abc_store).2
    = Callback None
        (Num (of_Z (Qceiling
           (inject_Z (Z.of_nat (members (scores Ascending) abc_store) + 1 - r) / 2)))).
Proof.
  assert (Hp : 0 < 2) by reflexivity.
  apply (getPageFor_of_rank (scores Ascending) "A" (Some (Num (Fin 2))) 2 10
           abc_store Hp eq_refl).
  by vm_compute.
Defined.

(** ** The page size setter *)

Lemma is_zero_Qeq (a b : Q) : a == b → is_zero a = is_zero b.
Proof.
  unfold Qeq, is_zero. intros H.
  destruct (Qnum a), (Qnum b); cbn [Z.eqb]; try done; lia.
Qed.

Lemma is_neg_Qeq (a b : Q) : a == b → is_neg a = is_neg b.
Proof.
  unfold Qeq, is_neg. intros H.
  destruct (Qnum a), (Qnum b); cbn [Z.ltb Z.compare]; try done; lia.
Qed.

(** Dividing by strictly equal values gives the same ceiling. *)
Lemma ceil_divide_strict_eq (x v w : jsval) :
  strict_eq v w = true → Math_ceil (divide x v) = Math_ceil (divide x w).
Proof.
  destruct v as [| |[a| |sa]], w as [| |[b| |sb]]; cbn [strict_eq number_eqb];
    try done; try (by intros ->%Bool.eqb_prop).
  intros Hab%Qeq_bool_eq. unfold Math_ceil, divide, div. cbn [ToNumber].
  rewrite (is_zero_Qeq a b Hab), (is_neg_Qeq a b Hab).
  destruct (ToNumber x) as [c| |s]; try done.
  destruct (is_zero b); [done|]. by rewrite Hab.
Qed.

(** X18: the setter changes nothing but the page size, and setting a page
    size and then using the overload without a page size is the same as
    passing that page size explicitly, for [pageCount] and [getPageFor] on
    every client. *)
Theorem set_pageSize_then_default (client : RedisClient) (this : Leaderboard)
    (value : jsval) (m : string) (d : database) :
  leaderboardName (set_pageSize this value) = leaderboardName this ∧
  sortOrder (leaderboardOptions (set_pageSize this value))
  = sortOrder (leaderboardOptions this) ∧
  redisOptions (set_pageSize this value) = redisOptions this ∧
  run client (pageCount (set_pageSize this value) None) d
  = run client (pageCount this (Some value)) d ∧
  run client (getPageFor (set_pageSize this value) m None) d
  = run client (getPageFor this m (Some value)) d.
Proof.
  unfold set_pageSize, pageCount, getPageFor, get_pageSize.
  destruct (strict_eq value _) eqn:Heq; cbn [negb]; [|done].
  repeat split; cbn [run].
  - destruct (send client _ d) as [d' [e r]].
    by rewrite (ceil_divide_strict_eq _ _ _ Heq).
  - destruct (exec client _ d) as [d' [e [rs|]]]; [|done].
    by rewrite (ceil_divide_strict_eq _ _ _ Heq).
Qed.

(** ** The constructor *)

Lemma guard_is_not_positive (v : jsval) :
  negb (ToBoolean v) || lt0 v = negb (positive v).
Proof.
  destruct v as [| |[q| |[|]]]; try done.
  cbn [ToBoolean lt0 ToNumber positive]. unfold is_zero, is_neg.
  by destruct (Qnum q).
Qed.

(** With both option objects the constructor gets as far as creating the
    client; each stored field is the given value or its default, and the
    client is created for the stored port and host. *)
Lemma constructor_with_options
    (createClient : jsval → option string → completion RedisClient)
    (n : string) (lo : ILeaderboardOptions) (ro : IRedisOptions) :
  constructor createClient n (Some lo) (Some ro)
  = match createClient
            (if ToBoolean (port ro) then port ro else Num DEFAULT_REDIS_PORT)
            (if truthy (host ro) then host ro else Some DEFAULT_REDIS_HOST) with
    | Normal c =>
        Normal
          {| leaderboardName := n;
             leaderboardOptions :=
               {| name := name lo;
                  pageSize := if positive (pageSize lo) then pageSize lo
                              else Num DEFAULT_PAGE_SIZE;
                  sortOrder := if ToBoolean (sortOrder lo) then sortOrder lo
                               else Num DEFAULT_SORT_ORDER |};
             redisOptions :=
               {| host := if truthy (host ro) then host ro
                          else Some DEFAULT_REDIS_HOST;
                  port := if ToBoolean (port ro) then port ro
                          else Num DEFAULT_REDIS_PORT;
                  db := db ro |};
             client := c |}
    | TypeError msg => TypeError msg
    | Thrown e => Thrown e
    end.
Proof.
  unfold constructor. rewrite guard_is_not_positive.
  destruct lo as [nm ps so], ro as [h pt b]; cbn [name pageSize sortOrder host port db].
  destruct (truthy h); cbn [negb name pageSize sortOrder host port db];
    destruct (ToBoolean pt); cbn [negb name pageSize sortOrder host port db];
    destruct (positive ps); cbn [negb name pageSize sortOrder host port db];
    destruct (ToBoolean so); cbn [negb name pageSize sortOrder host port db];
    by destruct (createClient _ _).
Qed.

(** X19: what a leaderboard holds when the constructor, given both option
    objects, completes: the name as passed; the page size when it is a
    positive number, else 50, so the stored page size is always positive;
    the sort order when it is truthy, else Ascending (so any non-zero
    number is kept); the host when it is a non-empty string, else
    localhost; the port when it is truthy, else 6379; and the client that
    [createClient] made for that port and host. *)
Theorem constructor_stores
    (createClient : jsval → option string → completion RedisClient)
    (n : string) (lo : ILeaderboardOptions) (ro : IRedisOptions)
    (this : Leaderboard) :
  constructor createClient n (Some lo) (Some ro) = Normal this →
  leaderboardName this = n ∧
  get_pageSize this
  = (if positive (pageSize lo) then pageSize lo else Num (Fin 50)) ∧
  positive (get_pageSize this) = true ∧
  sortOrder (leaderboardOptions this)
  = (if ToBoolean (sortOrder lo) then sortOrder lo else Num Ascending) ∧
  host (redisOptions this)
  = (if truthy (host ro) then host ro else Some "localhost") ∧
  port (redisOptions this)
  = (if ToBoolean (port ro) then port ro else Num (Fin 6379)) ∧
  createClient (port (redisOptions this)) (host (redisOptions this))
  = Normal (client this).
Proof.
  rewrite constructor_with_options.
  destruct (createClient _ _) as [c| |] eqn:Hc; intros [= <-].
  unfold get_pageSize.
  cbn [leaderboardName leaderboardOptions redisOptions client pageSize sortOrder
       host port].
  repeat split; [|exact Hc]. by destruct (positive (pageSize lo)) eqn:Hps.
Qed.

Lemma constructor_stores_witness :
  get_pageSize (scores Ascending) = Num (Fin 50) ∧
  sortOrder (leaderboardOptions (scores Ascending)) = Num Ascending ∧
  port (redisOptions (scores Ascending)) = Num (Fin 6379).
Proof.
  destruct (constructor_stores createClient_connected "scores"
              {| name := None; pageSize := Num (Fin (-5)); sortOrder := Undefined |}
              {| host := None; port := Undefined; db := None |}
              (scores Ascending) eq_refl)
    as (_ & Hsize & _ & Horder & _ & Hport & _).
  split; [exact Hsize|]. split; [exact Horder | exact Hport].
Defined.

(** X20: the constructor completes exactly when both option objects are
    given and [createClient] returns a client for the stored port and
    host; when an option object is omitted it throws a TypeError before
    the client library is reached. *)
Theorem constructor_completes_iff
    (createClient : jsval → option string → completion RedisClient)
    (n : string) (lo : option ILeaderboardOptions) (ro : option IRedisOptions) :
  ((∃ this : Leaderboard, constructor createClient n lo ro = Normal this) ↔
   ∃ (lo' : ILeaderboardOptions) (ro' : IRedisOptions) (c : RedisClient),
     lo = Some lo' ∧ ro = Some ro' ∧
     createClient (if ToBoolean (port ro') then port ro' else Num (Fin 6379))
                  (if truthy (host ro') then host ro' else Some "localhost")
     = Normal c) ∧
  (lo = None ∨ ro = None →
   ∃ msg : string, constructor createClient n lo ro = TypeError msg).
Proof.
  split; [split|].
  - intros [this Hc]. destruct lo as [lo|], ro as [ro|]; try done.
    rewrite constructor_with_options in Hc.
    destruct (createClient _ _) as [c| |] eqn:Hcc; [|done..].
    by exists lo, ro, c.
  - intros (lo' & ro' & c & -> & -> & Hcc).
    rewrite constructor_with_options.
    change DEFAULT_REDIS_PORT with (Fin 6379).
    change DEFAULT_REDIS_HOST with "localhost"%string.
    rewrite Hcc. eauto.
  - unfold constructor. intros [->| ->].
    + destruct ro; eauto.
    + eauto.
Qed.

Lemma constructor_completes_iff_witness :
  (∃ this : Leaderboard,
     constructor createClient_connected "scores"
       (Some {| name := None; pageSize := Undefined; sortOrder := Undefined |})
       (Some local_redis) = Normal this) ∧
  ¬ (∃ this : Leaderboard,
       constructor createClient_rejecting "scores"
         (Some {| name := None; pageSize := Undefined; sortOrder := Undefined |})
         (Some local_redis) = Normal this) ∧
  ∃ msg : string, constructor createClient_connected "Scores" None None = TypeError msg.
Proof.
  split; [|split].
  - apply (proj1 (constructor_completes_iff createClient_connected "scores" _ _)).
    by eexists _, _, _.
  - intros H.
    apply (proj1 (constructor_completes_iff createClient_rejecting "scores" _ _)) in H.
    by destruct H as (lo' & ro' & c & _ & _ & Hc).
  - apply (proj2 (constructor_completes_iff createClient_connected "Scores" None None)).
    by left.
Defined.

(** X21: constructing is idempotent: the options a constructed leaderboard
    holds are already normal, so constructing again from them gives the
    same leaderboard. *)
Theorem constructor_idempotent
    (createClient : jsval → option string → completion RedisClient)
    (n : string) (lo : ILeaderboardOptions) (ro : IRedisOptions)
    (this : Leaderboard) :
  constructor createClient n (Some lo) (Some ro) = Normal this →
  constructor createClient n
    (Some (leaderboardOptions this)) (Some (redisOptions this))
  = Normal this.
Proof.
  rewrite !constructor_with_options.
  destruct (createClient _ _) as [c| |] eqn:Hc; intros [= <-].
  cbn [leaderboardOptions redisOptions name pageSize sortOrder host port db].
  assert (Hport : ∀ v : jsval,
            (if ToBoolean (if ToBoolean v then v else Num DEFAULT_REDIS_PORT)
             then (if ToBoolean v then v else Num DEFAULT_REDIS_PORT)
             else Num DEFAULT_REDIS_PORT)
            = (if ToBoolean v then v else Num DEFAULT_REDIS_PORT))
    by (intros v; by destruct (ToBoolean v) eqn:Hv; rewrite ?Hv).
  assert (Hhost : ∀ h : option string,
            (if truthy (if truthy h then h else Some DEFAULT_REDIS_HOST)
             then (if truthy h then h else Some DEFAULT_REDIS_HOST)
             else Some DEFAULT_REDIS_HOST)
            = (if truthy h then h else Some DEFAULT_REDIS_HOST))
    by (intros h; by destruct (truthy h) eqn:Hh; rewrite ?Hh).
  rewrite Hport, Hhost, Hc.
  do 2 f_equal; f_equal.
  - by destruct (positive (pageSize lo)) eqn:Hps; rewrite ?Hps.
  - by destruct (ToBoolean (sortOrder lo)) eqn:Hso; rewrite ?Hso.
Qed.

Lemma constructor_idempotent_witness :
  constructor createClient_connected "scores"
    (Some (leaderboardOptions (scores Ascending)))
    (Some (redisOptions (scores Ascending)))
  = Normal (scores Ascending).
Proof.
  exact (constructor_idempotent createClient_connected "scores"
           {| name := None; pageSize := Undefined; sortOrder := Undefined |}
           {| host := None; port := Undefined; db := None |}
           (scores Ascending) eq_refl).
Defined.


Lemma rankMember_effect_witness :
  (run connected (rankMember (scores Ascending) "D" 40) abc_store).2
  = Callback None (Num (Fin 1)) ∧
  members (scores Ascending)
    (run connected (rankMember (scores Ascending) "D" 40) abc_store).1 = 4%nat ∧
  (run connected (getScoreFor (scores Ascending) "A")
     (run connected (rankMember (scores Ascending) "D" 40) abc_store).1).2
  = Callback None (Num (Fin 10)).
Proof.
  destruct (rankMember_effect (scores Ascending) "D" 40 abc_store)
    as (Hreply & Hcount & Hframe).
  split; [|split].
  - rewrite Hreply. by vm_compute.
  - rewrite Hcount. by vm_compute.
  - rewrite (Hframe "A") by done. by vm_compute.
Defined.

(** ** The pair against the single queries *)

(** X22: when the client answers the batch with the replies it gives the
    two single calls (no error, a rank reply that is there), the pair of
    [getRankWithScoreFor] carries the rank [getRankFor] calls back with,
    and its score is the score reply as it came, of which [getScoreFor]
    calls back with the [parseFloat]. *)
Theorem getRankWithScoreFor_agrees (client : RedisClient) (this : Leaderboard)
    (m : string) (c : command) (d d1 d2 d3 : database) (s i : jsval) :
  commands (getRankFor this m) = [c] →
  send client (ZSCORE (leaderboardName this) m) d = (d1, (None, s)) →
  send client c d = (d2, (None, i)) →
  exec client (commands (getRankWithScoreFor this m)) d = (d3, (None, Some [s; i])) →
  loose_eq i Null = false →
  ∃ pair : IRankWithScoresResult,
    (run client (getRankWithScoreFor this m) d).2 = Callback None (Some pair) ∧
    (run client (getRankFor this m) d).2 = Callback None (rank pair) ∧
    score pair = s ∧
    (run client (getScoreFor this m) d).2 = Callback None (parseFloat (score pair)).
Proof.
  unfold getRankFor, getRankWithScoreFor, getScoreFor.
  rewrite strict_loose_Num.
  destruct (strict_eq _ _); cbn [commands run app];
    intros [= <-] -> -> -> Hi; cbn [snd error_is_null negb at_index nth];
    rewrite Hi; by eexists.
Qed.

Lemma getRankWithScoreFor_agrees_witness :
  ∃ pair : IRankWithScoresResult,
    (run connected (getRankWithScoreFor (scores Descending) "B") abc_store).2
    = Callback None (Some pair) ∧
    (run connected (getRankFor (scores Descending) "B") abc_store).2
    = Callback None (rank pair) ∧
    score pair = Num (Fin 20) ∧
    (run connected (getScoreFor (scores Descending) "B") abc_store).2
    = Callback None (parseFloat (score pair)).
Proof.
  apply (getRankWithScoreFor_agrees connected (scores Descending) "B"
           (ZRANK "scores" "B") abc_store abc_store abc_store abc_store
           (Num (Fin 20)) (Num (Fin 1))); by vm_compute.
Defined.
